(** * CLI-proxy-tester: the probe-and-classify engine of [main.go]

    A shallow embedding of the Go program: proxy records and their two
    string projections, the line parser and the loader, the prober
    ([testProxy]) against an explicit model of the HTTP client it calls,
    and the aggregator ([handleProxyResult]) draining the completion
    channel.  Go strings are byte strings ([string]), Go [int] and
    [time.Duration] are [Z], a Go slice is a [list], a nil pointer is
    [None], and a Go [(value, error)] return is a pair whose second
    component is [None] for a nil error. *)

From Stdlib Require Import String Ascii ZArith List Bool Lia Permutation.
Import ListNotations.

Local Open Scope string_scope.
Local Open Scope Z_scope.
Local Open Scope list_scope.

(** Go's string concatenation [+], which associates to the left. *)
Local Infix "+++" := String.append (at level 50, left associativity).

(** ** The part of package [strings] the program uses *)

Module strings.

(** [strings.Split(s, sep)] for a separator of one byte, the only use
    in the program ([strings.Split(line, ":")]).  The result always has
    one field more than [s] has separators; an empty [s] gives one
    empty field. *)
Fixpoint Split (s : string) (sep : ascii) : list string :=
  match s with
  | EmptyString => [EmptyString]
  | String ch rest =>
      if Ascii.eqb ch sep then EmptyString :: Split rest sep
      else match Split rest sep with
           | field :: fields => String ch field :: fields
           | [] => [String ch EmptyString]
           end
  end.

(** [strings.Join(elems, sep)], used only to state what [Split] undoes. *)
Fixpoint Join (elems : list string) (sep : ascii) : string :=
  match elems with
  | [] => EmptyString
  | [e] => e
  | e :: rest => e +++ String sep (Join rest sep)
  end.

(** [strings.Count(s, sep)] for a separator of one byte. *)
Fixpoint Count (s : string) (sep : ascii) : nat :=
  match s with
  | EmptyString => 0%nat
  | String ch rest =>
      if Ascii.eqb ch sep then S (Count rest sep) else Count rest sep
  end.

(** [strings.HasPrefix(s, prefix)]. *)
Definition HasPrefix (s prefix : string) : bool := String.prefix prefix s.

End strings.

(** ** Data model *)

(** [type Proxy struct { IP, Port, User, Pass string }] *)
Record Proxy : Type := mkProxy {
  IP : string;
  Port : string;
  User : string;
  Pass : string
}.

(** [type ProxyTestResult struct]: the proxy tested, the elapsed
    [time.Duration] in nanoseconds, the status code and the
    transport-succeeded flag. *)
Record ProxyTestResult : Type := mkResult {
  ProxyUsed : Proxy;
  Speed : Z;
  StatusCode : Z;
  Success : bool
}.

(** Go's [error] values; the program only builds one, with [errors.New]. *)
Inductive error : Type :=
| errors_New (msg : string).

(** [s != ""] *)
Definition nonempty (s : string) : bool := negb (String.eqb s "").

(** [func (p *Proxy) rawString() string]: [ip:port] or
    [ip:port:user:pass]. *)
Definition rawString (p : Proxy) : string :=
  let raw := IP p +++ ":" +++ Port p in
  if nonempty (User p) && nonempty (Pass p)
  then raw +++ ":" +++ User p +++ ":" +++ Pass p
  else raw.

(** [func (p *Proxy) conString() string]: [ip:port] or
    [user:pass@ip:port]. *)
Definition conString (p : Proxy) : string :=
  let raw := IP p +++ ":" +++ Port p in
  if nonempty (User p) && nonempty (Pass p)
  then User p +++ ":" +++ Pass p +++ "@" +++ raw
  else raw.

(** ** Parsing and loading *)

(** [parts[i]], for an index the caller has checked against [len(parts)]. *)
Definition index (parts : list string) (i : nat) : string := nth i parts "".

(** [func stringToProxy(line string) (Proxy, error)] *)
Definition stringToProxy (line : string) : Proxy * option error :=
  let parts := strings.Split line ":" in
  if Nat.eqb (length parts) 2 then
    (mkProxy (index parts 0) (index parts 1) "" "", None)
  else if Nat.eqb (length parts) 4 then
    (mkProxy (index parts 0) (index parts 1) (index parts 2) (index parts 3),
     None)
  else
    (mkProxy "" "" "" "", Some (errors_New "Error parsing proxy")).

(** The body of the [for scanner.Scan()] loop of [loadProxies]: one line
    read, the record appended when [err == nil]. *)
Definition loadLine (proxies : list Proxy) (text : string) : list Proxy :=
  let '(proxy, err) := stringToProxy text in
  match err with
  | None => proxies ++ [proxy]
  | Some _ => proxies
  end.

(** The scanning loop over the lines [scanner.Text()] yields in turn. *)
Definition scanLines (lines : list string) (proxies : list Proxy) : list Proxy :=
  fold_left loadLine lines proxies.

(** [func loadProxies(filePath string) ([]Proxy, error)].  The file
    system is the function [os_Open], which gives the lines of the file
    at a path or the error of opening it. *)
Definition loadProxies (os_Open : string -> list string * option error)
    (filePath : string) : list Proxy * option error :=
  let '(file, err) := os_Open filePath in
  match err with
  | Some e => ([], Some e)
  | None => (scanLines file [], None)
  end.

(** ** The HTTP client the prober calls *)

(** [*url.URL]: only its identity matters here. *)
Record URL : Type := mkURL { urlText : string }.

(** [http.Transport{Proxy: http.ProxyURL(u)}]: the proxy function always
    answers the fixed [u]; a nil [u] means a direct connection. *)
Record Transport : Type := mkTransport { ProxyURL : option URL }.

(** [http.Client{Transport: ..., Timeout: ...}] *)
Record Client : Type := mkClient {
  clientTransport : Transport;
  Timeout : Z
}.

(** [*http.Request]: method, target and the header lines added so far. *)
Record Request : Type := mkRequest {
  Method : string;
  Target : string;
  Header : list (string * string)
}.

(** [*http.Response]: the program reads [resp.StatusCode] only. *)
Record Response : Type := mkResponse { RespStatusCode : Z }.

(** [req.Header.Add(key, value)] *)
Definition Header_Add (req : Request) (key value : string) : Request :=
  mkRequest (Method req) (Target req) (Header req ++ [(key, value)]).

(** The two pure library functions of the prober: [url.Parse] and
    [http.NewRequest] (with the nil body the program passes). *)
Record Lib : Type := mkLib {
  url_Parse : string -> option URL * option error;
  http_NewRequest : string -> string -> option Request * option error
}.

(** What the outside world does during one probe: the two readings of
    [time.Now()] around the request, in nanoseconds, and the answer of
    [myClient.Do(req)]. *)
Record Net : Type := mkNet {
  clock_start : Z;
  clock_end : Z;
  Do : Client -> Request -> option Response * option error
}.

(** [time.Second], in nanoseconds. *)
Definition time_Second : Z := 1000000000.

Definition userAgent : string :=
  "Mozilla/5.0 (Windows NT 10.0; Win64; x64) AppleWebKit/537.36 (KHTML, like Gecko) Chrome/79.0.3945.117 Safari/537.36".

(** How a call of [testProxy] ends: it returns, having sent [sent] into
    the channel (no value or one), or it panics on a nil pointer, which
    in a goroutine without [recover] ends the whole process. *)
Inductive ProbeEnd : Type :=
| ProbeReturns (sent : list ProxyTestResult)
| ProbePanics.

(** [func testProxy(proxy Proxy, endpoint string, c chan ProxyTestResult)].
    The variable [err] of the source is assigned twice before it is
    read: the second [let] below shadows the first as [req, err :=]
    overwrites it. *)
Definition testProxy (lib : Lib) (net : Net)
    (proxy : Proxy) (endpoint : string) : ProbeEnd :=
  let '(proxyURL, err) := url_Parse lib (conString proxy) in
  let clientTransport := mkTransport proxyURL in
  let myClient := mkClient clientTransport (10 * time_Second) in
  let '(req, err) := http_NewRequest lib "GET" endpoint in
  match req with
  | None => ProbePanics                       (* req.Header on a nil req *)
  | Some req =>
      let req := Header_Add req "User-Agent" userAgent in
      let req := Header_Add req "Accept" "*/*" in
      match err with
      | Some _ => ProbeReturns []
      | None =>
          let success := true in
          let statusCode := -1 in
          let start := clock_start net in
          let '(resp, err) := Do net myClient req in
          let end_ := clock_end net - start in
          match err with
          | Some _ =>
              let success := false in
              ProbeReturns [mkResult proxy end_ statusCode success]
          | None =>
              match resp with
              | None => ProbePanics           (* resp.StatusCode on a nil resp *)
              | Some resp =>
                  let statusCode := RespStatusCode resp in
                  ProbeReturns [mkResult proxy end_ statusCode success]
              end
          end
      end
  end.

(** The client [testProxy] builds for a proxy. *)
Definition clientFor (lib : Lib) (proxy : Proxy) : Client :=
  mkClient (mkTransport (fst (url_Parse lib (conString proxy))))
           (10 * time_Second).

(** The request [testProxy] sends once [http.NewRequest] gave [req]. *)
Definition withHeaders (req : Request) : Request :=
  Header_Add (Header_Add req "User-Agent" userAgent) "Accept" "*/*".

(** ** The aggregator *)

(** What [handleProxyResult] does that can be seen from outside, in
    order: a receive from the channel, the lines it prints, and the
    closing of the channel. *)
Inductive Event : Type :=
| Recv (result : ProxyTestResult)
| PrintResultsFor (raw : string)
| PrintOK (statusCode speed : Z)
| PrintBAD
| PrintWARN (statusCode speed : Z)
| Close.

(** The variables of [handleProxyResult] and the channel it reads:
    [pending] are the values still to arrive, in arrival order. *)
Record Agg : Type := mkAgg {
  pending : list ProxyTestResult;
  i : Z;
  goodProxies : list string;
  badProxies : list string;
  trace : list Event;
  closed : bool
}.

(** The body of the loop once [result := <-c] has been received. *)
Definition handleOne (result : ProxyTestResult)
    (good bad : list string) (tr : list Event)
    : list string * list string * list Event :=
  let tr := tr ++ [Recv result;
                   PrintResultsFor (rawString (ProxyUsed result))] in
  if Success result && (StatusCode result >=? 200) && (StatusCode result <? 400)
  then
    (good ++ [rawString (ProxyUsed result)], bad,
     tr ++ [PrintOK (StatusCode result) (Speed result)])
  else if StatusCode result =? -1 then
    (good, bad ++ [rawString (ProxyUsed result)], tr ++ [PrintBAD])
  else
    (good ++ [rawString (ProxyUsed result)], bad,
     tr ++ [PrintWARN (StatusCode result) (Speed result)]).

(** How a call of [handleProxyResult] ends: it returns with the channel
    closed, or it waits for ever on a receive that nothing will answer. *)
Inductive AggEnd : Type :=
| Returned (final : Agg)
| Blocked (stuck : Agg).

(** The loop [for i := 0; i < numOfProxies; i++], by recursion on the
    number of iterations left, followed by [close(c)]. *)
Fixpoint aggLoop (left : nat) (st : Agg) : AggEnd :=
  match left with
  | O => Returned (mkAgg (pending st) (i st) (goodProxies st) (badProxies st)
                         (trace st ++ [Close]) true)
  | S left' =>
      match pending st with
      | [] => Blocked st
      | result :: rest =>
          let '(good, bad, tr) :=
            handleOne result (goodProxies st) (badProxies st) (trace st) in
          aggLoop left' (mkAgg rest (i st + 1) good bad tr false)
      end
  end.

(** [func handleProxyResult(c, numOfProxies, goodProxies, badProxies)]:
    [c] holds the values the channel will deliver, and the two lists are
    the contents of the slices the pointers refer to. *)
Definition handleProxyResult (c : list ProxyTestResult) (numOfProxies : Z)
    (good bad : list string) : AggEnd :=
  aggLoop (Z.to_nat (numOfProxies - 0)) (mkAgg c 0 good bad [] false).

(** One step of the aggregator as a transition: an iteration of the loop
    while [i < numOfProxies] and a value arrives, the closing of the
    channel when the loop condition fails. *)
Inductive aggStep (numOfProxies : Z) : Agg -> Agg -> Prop :=
| step_receive st result rest good bad tr :
    closed st = false ->
    i st < numOfProxies ->
    pending st = result :: rest ->
    handleOne result (goodProxies st) (badProxies st) (trace st)
      = (good, bad, tr) ->
    aggStep numOfProxies st (mkAgg rest (i st + 1) good bad tr false)
| step_close st :
    closed st = false ->
    ~ i st < numOfProxies ->
    aggStep numOfProxies st
      (mkAgg (pending st) (i st) (goodProxies st) (badProxies st)
             (trace st ++ [Close]) true).

(** Runs of the aggregator: zero or more steps. *)
Inductive aggRun (numOfProxies : Z) : Agg -> Agg -> Prop :=
| run_done st : aggRun numOfProxies st st
| run_step st mid final :
    aggStep numOfProxies st mid ->
    aggRun numOfProxies mid final ->
    aggRun numOfProxies st final.

(** The state in which [main] starts the aggregator: nil slices, an open
    channel. *)
Definition aggStart (c : list ProxyTestResult) : Agg :=
  mkAgg c 0 [] [] [] false.

(** ** Dispositions *)

(** The three branches of the aggregator's conditional. *)
Inductive Disposition : Type := Working | Suspect | Failed.

(** The branch [handleProxyResult] takes for a result. *)
Definition disposition (result : ProxyTestResult) : Disposition :=
  if Success result && (StatusCode result >=? 200) && (StatusCode result <? 400)
  then Working
  else if StatusCode result =? -1 then Failed
  else Suspect.

(** The disposition rule in the words of the specification: a function
    of the transport-succeeded flag and the status code only. *)
Definition specDisposition (success : bool) (status : Z) : Disposition :=
  if negb success then Failed
  else if (200 <=? status) && (status <=? 399) then Working
  else Suspect.

(** The raw forms of the results of a list that the aggregator puts in
    [good] and in [bad]. *)
Definition isBad (result : ProxyTestResult) : bool :=
  match disposition result with Failed => true | _ => false end.

Definition goodOf (rs : list ProxyTestResult) : list string :=
  map (fun r => rawString (ProxyUsed r)) (filter (fun r => negb (isBad r)) rs).

Definition badOf (rs : list ProxyTestResult) : list string :=
  map (fun r => rawString (ProxyUsed r)) (filter isBad rs).

(** ** Properties of lines and records the theorems speak about *)

(** The number of colon-delimited fields of a line. *)
Definition fieldCount (line : string) : nat :=
  length (strings.Split line ":").

(** A line the parser accepts: two fields or four. *)
Definition validLine (line : string) : Prop :=
  fieldCount line = 2%nat \/ fieldCount line = 4%nat.

(** Parsing succeeds and the raw form of the record is the line again. *)
Definition roundTrips (line : string) : Prop :=
  snd (stringToProxy line) = None /\
  rawString (fst (stringToProxy line)) = line.

(** Username and password are both present or both absent. *)
Definition credentialsInvariant (p : Proxy) : Prop :=
  (User p <> "" /\ Pass p <> "") \/ (User p = "" /\ Pass p = "").

(** Exactly one of username and password is present. *)
Definition partialCredentials (p : Proxy) : Prop :=
  (User p = "" /\ Pass p <> "") \/ (User p <> "" /\ Pass p = "").

(** The line the aggregator prints for a disposition. *)
Definition announce (d : Disposition) (result : ProxyTestResult) : Event :=
  match d with
  | Working => PrintOK (StatusCode result) (Speed result)
  | Suspect => PrintWARN (StatusCode result) (Speed result)
  | Failed => PrintBAD
  end.

(** What one iteration on [result] adds to the trace. *)
Definition eventsOf (result : ProxyTestResult) : list Event :=
  [Recv result; PrintResultsFor (rawString (ProxyUsed result));
   announce (disposition result) result].

(** One iteration treats [result] as disposition [d]: it announces [d]
    and appends the raw form to [bad] for [Failed], to [good] for
    [Working] and [Suspect]. *)
Definition classifiedAs (result : ProxyTestResult) (d : Disposition) : Prop :=
  forall good bad tr,
    handleOne result good bad tr =
      (match d with
       | Failed => good
       | _ => good ++ [rawString (ProxyUsed result)]
       end,
       match d with
       | Failed => bad ++ [rawString (ProxyUsed result)]
       | _ => bad
       end,
       tr ++ [Recv result; PrintResultsFor (rawString (ProxyUsed result));
              announce d result]).

(** The convention of the prober on its two result fields: the flag is
    false exactly when the status code is the sentinel [-1]. *)
Definition sentinelConvention (result : ProxyTestResult) : Prop :=
  (Success result = false -> StatusCode result = -1) /\
  (Success result = true -> StatusCode result <> -1).

(** The invariant the specification gives for an outcome. *)
Definition specOutcomeInvariant (result : ProxyTestResult) : Prop :=
  (Success result = false -> StatusCode result = -1) /\
  (Success result = true -> 100 <= StatusCode result <= 599).

(** The results in the receive events of a trace, in order. *)
Fixpoint received (tr : list Event) : list ProxyTestResult :=
  match tr with
  | [] => []
  | Recv result :: tr' => result :: received tr'
  | _ :: tr' => received tr'
  end.

(** What a call of [testProxy] sent into the channel. *)
Definition sentBy (e : ProbeEnd) : list ProxyTestResult :=
  match e with
  | ProbeReturns sent => sent
  | ProbePanics => []
  end.

(** The contract of [http.Client.Do]: a nil error comes with a response. *)
Definition doContract (net : Net) : Prop :=
  forall client req, Do net client req <> (None, None).

(** ** Concrete stand-ins for the library and the network

    Used to run the model on concrete inputs.  [stubLib] answers as Go's
    [net/url] does on the inputs used below: a text that starts with
    [ip:port] is refused by [url.Parse] (a colon in the first path
    segment), and a target with a space or a percent sign that starts
    no escape is refused by [http.NewRequest]. *)

Definition stubParse (text : string) : option URL * option error :=
  (None, Some (errors_New "first path segment in URL cannot contain colon")).

Definition stubNewRequest (method target : string)
    : option Request * option error :=
  if Nat.eqb (strings.Count target " ") 0
     && Nat.eqb (strings.Count target "%") 0
  then (Some (mkRequest method target []), None)
  else (None, Some (errors_New "invalid URL")).

Definition stubLib : Lib := mkLib stubParse stubNewRequest.

(** A probe that runs into the client's timeout after ten seconds. *)
Definition netTimeout : Net :=
  mkNet 0 (10 * time_Second)
        (fun _ _ => (None, Some (errors_New "context deadline exceeded"))).

(** A probe answered with status [code] after [elapsed] nanoseconds. *)
Definition netStatus (code elapsed : Z) : Net :=
  mkNet 0 elapsed (fun _ _ => (Some (mkResponse code), None)).

(** ** Files: the line scanner, the disk and [writeArrayToFile] *)

(** The bytes ['\n'] and ['\r']. *)
Definition LF : ascii := "010"%char.
Definition CR : ascii := "013"%char.

(** ["\n"] *)
Definition newline : string := String LF EmptyString.

(** [bufio.MaxScanTokenSize]: a line of that many bytes or more does not
    fit the scanner's buffer, and [Scan] then stops for good. *)
Definition MaxScanTokenSize : Z := 65536.

(** [dropCR] of package [bufio]: one trailing ['\r'] is dropped. *)
Fixpoint dropCR (data : string) : string :=
  match data with
  | EmptyString => EmptyString
  | String ch rest =>
      match rest with
      | EmptyString => if Ascii.eqb ch CR then EmptyString else data
      | String _ _ => String ch (dropCR rest)
      end
  end.

Definition tooLong (segment : string) : bool :=
  MaxScanTokenSize <=? Z.of_nat (String.length segment).

(** The tokens [bufio.ScanLines] gives for the stretches between the
    newlines of a file: every stretch before a newline is a line, the
    stretch after the last newline is one unless it is empty, and the
    scan ends at the first stretch that is too long. *)
Fixpoint scanSegments (segments : list string) : list string :=
  match segments with
  | [] => []
  | segment :: rest =>
      match rest with
      | [] =>
          if String.eqb segment "" then []
          else if tooLong segment then []
          else [dropCR segment]
      | _ :: _ =>
          if tooLong segment then []
          else dropCR segment :: scanSegments rest
      end
  end.

(** The values of [scanner.Text()] over the successive successful calls
    of [scanner.Scan()] on a file of the given content. *)
Definition scannerLines (content : string) : list string :=
  scanSegments (strings.Split content LF).

(** The files on disk, by name. *)
Definition Disk : Type := string -> option string.

(** The disk with the content of one file replaced (or the file made). *)
Definition writeFile (disk : Disk) (name content : string) : Disk :=
  fun other => if String.eqb other name then Some content else disk other.

(** What the operating system may refuse: [os.Open] of a path,
    [os.OpenFile] of a name for appending, and a [Write] of [data] to
    the file [name] of content [content], which then fails after
    [n] bytes. *)
Record OS : Type := mkOS {
  openFault : string -> option error;
  openFileFault : string -> option error;
  writeFault : string -> string -> string -> option (nat * error)
}.

(** [os.Open(filePath)] followed by the scanner over the file: the
    argument [loadProxies] takes. *)
Definition os_Open (os : OS) (disk : Disk) (filePath : string)
    : list string * option error :=
  match openFault os filePath with
  | Some e => ([], Some e)
  | None =>
      match disk filePath with
      | None => ([], Some (errors_New "no such file or directory"))
      | Some content => (scannerLines content, None)
      end
  end.

(** The loop of [writeArrayToFile] over a file opened for appending,
    [content] being what the file holds so far. *)
Fixpoint writeAll (os : OS) (fileName content : string) (arr : list string)
    : string * option error :=
  match arr with
  | [] => (content, None)
  | s :: rest =>
      match writeFault os fileName content (s +++ newline) with
      | Some (n, e) =>
          (content +++ String.substring 0 n (s +++ newline), Some e)
      | None => writeAll os fileName (content +++ (s +++ newline)) rest
      end
  end.

(** What a file holds: nothing when it does not exist ([os.O_CREATE]). *)
Definition contentOf (disk : Disk) (fileName : string) : string :=
  match disk fileName with
  | Some content => content
  | None => ""
  end.

(** [func writeArrayToFile(arr []string, fileName string) error], with
    the disk before and after.  The deferred [f.Close()] on a nil [f]
    returns an error that is dropped. *)
Definition writeArrayToFile (os : OS) (disk : Disk)
    (arr : list string) (fileName : string) : Disk * option error :=
  match openFileFault os fileName with
  | Some e => (disk, Some e)
  | None =>
      let '(content, err) := writeAll os fileName (contentOf disk fileName) arr in
      (writeFile disk fileName content, err)
  end.

(** The text [writeArrayToFile] appends for a slice when nothing fails. *)
Definition linesText (arr : list string) : string :=
  fold_right (fun s text => (s +++ newline) +++ text) "" arr.

(** An operating system that refuses nothing for one file name. *)
Definition faultless (os : OS) (fileName : string) : Prop :=
  openFileFault os fileName = None /\
  forall content data, writeFault os fileName content data = None.

(** A string the scanner gives back as one line when it is written
    followed by a newline. *)
Definition scannable (s : string) : Prop :=
  strings.Count s LF = 0%nat /\ dropCR s = s /\ tooLong s = false.

(** A record whose fields hold no colon and whose credentials are both
    present or both absent. *)
Definition cleanRecord (p : Proxy) : Prop :=
  strings.Count (IP p) ":" = 0%nat /\
  strings.Count (Port p) ":" = 0%nat /\
  strings.Count (User p) ":" = 0%nat /\
  strings.Count (Pass p) ":" = 0%nat /\
  credentialsInvariant p.

(** The record a parsed record stands for in both string projections:
    itself, or itself without credentials when it has only one. *)
Definition normalised (p : Proxy) : Proxy :=
  if nonempty (User p) && nonempty (Pass p) then p
  else mkProxy (IP p) (Port p) "" "".

(** The lines the parser accepts, as a test. *)
Definition validLineb (line : string) : bool :=
  Nat.eqb (fieldCount line) 2 || Nat.eqb (fieldCount line) 4.

(** ** The whole program *)

(** What the user gives [main]: the line typed for the target, and the
    answer of the file dialog. *)
Record UserInput : Type := mkInput {
  typedEndpoint : string;
  dialogLoad : string * option error
}.

(** How [main] ends: [os.Exit], a panic in a probe, a wait that never
    ends, or its last line, with the errors of the two writes. *)
Inductive MainEnd : Type :=
| Exited (code : Z)
| Crashed
| Stuck
| Finished (workingErr failedErr : option error).

(** The probes [main] starts, one per record, each in its own network
    conditions [nets k]. *)
Definition probeAll (lib : Lib) (nets : nat -> Net)
    (proxies : list Proxy) (endpoint : string) : list ProbeEnd :=
  map (fun numbered => testProxy lib (nets (fst numbered)) (snd numbered) endpoint)
      (combine (seq 0 (length proxies)) proxies).

Definition panicked (e : ProbeEnd) : bool :=
  match e with
  | ProbePanics => true
  | ProbeReturns _ => false
  end.

(** The runs of [main] from a disk.  The order in which the probes'
    results reach the aggregator is the scheduler's choice: any
    arrangement [stream] of what was sent.  Console output is left out. *)
Inductive mainRuns (os : OS) (lib : Lib) (nets : nat -> Net)
    (input : UserInput) (disk : Disk) : MainEnd -> Disk -> Prop :=
| main_invalid_url :
    strings.HasPrefix (typedEndpoint input) "https://" = false ->
    mainRuns os lib nets input disk (Exited (-1)) disk
| main_dialog_cancelled e :
    strings.HasPrefix (typedEndpoint input) "https://" = true ->
    snd (dialogLoad input) = Some e ->
    mainRuns os lib nets input disk (Exited (-1)) disk
| main_load_failed proxies e :
    strings.HasPrefix (typedEndpoint input) "https://" = true ->
    snd (dialogLoad input) = None ->
    loadProxies (os_Open os disk) (fst (dialogLoad input))
      = (proxies, Some e) ->
    mainRuns os lib nets input disk (Exited (-1)) disk
| main_probe_panics proxies :
    strings.HasPrefix (typedEndpoint input) "https://" = true ->
    snd (dialogLoad input) = None ->
    loadProxies (os_Open os disk) (fst (dialogLoad input))
      = (proxies, None) ->
    existsb panicked (probeAll lib nets proxies (typedEndpoint input)) = true ->
    mainRuns os lib nets input disk Crashed disk
| main_stuck proxies stream stuck :
    strings.HasPrefix (typedEndpoint input) "https://" = true ->
    snd (dialogLoad input) = None ->
    loadProxies (os_Open os disk) (fst (dialogLoad input))
      = (proxies, None) ->
    existsb panicked (probeAll lib nets proxies (typedEndpoint input)) = false ->
    Permutation stream
      (flat_map sentBy (probeAll lib nets proxies (typedEndpoint input))) ->
    handleProxyResult stream (Z.of_nat (length proxies)) [] []
      = Blocked stuck ->
    mainRuns os lib nets input disk Stuck disk
| main_finished proxies stream final disk1 e1 disk2 e2 :
    strings.HasPrefix (typedEndpoint input) "https://" = true ->
    snd (dialogLoad input) = None ->
    loadProxies (os_Open os disk) (fst (dialogLoad input))
      = (proxies, None) ->
    existsb panicked (probeAll lib nets proxies (typedEndpoint input)) = false ->
    Permutation stream
      (flat_map sentBy (probeAll lib nets proxies (typedEndpoint input))) ->
    handleProxyResult stream (Z.of_nat (length proxies)) [] []
      = Returned final ->
    writeArrayToFile os disk (goodProxies final) "working.txt" = (disk1, e1) ->
    writeArrayToFile os disk1 (badProxies final) "failed.txt" = (disk2, e2) ->
    mainRuns os lib nets input disk (Finished e1 e2) disk2.

(** A disk and an operating system for concrete runs: one proxy file,
    nothing refused. *)
Definition stubOS : OS :=
  mkOS (fun _ => None) (fun _ => None) (fun _ _ _ => None).

Definition stubDisk : Disk :=
  writeFile (fun _ => None) "proxies.txt"
    ("1.2.3.4:8080" +++ newline +++ "5.6.7.8:8080:alice:secret" +++ newline).

(** The scenario of two records: the probe of the first runs into the
    timeout, the probe of the second is answered with status 200. *)
Definition scenarioNets (k : nat) : Net :=
  match k with
  | O => netTimeout
  | S _ => netStatus 200 400000000
  end.

Definition scenarioInput : UserInput :=
  mkInput "https://example.com" ("proxies.txt", None).

(** A line of [x]s that the scanner cannot hold, and a file with a good
    line before it and a good line after it. *)
Fixpoint repeated (ch : ascii) (n : nat) : string :=
  match n with
  | O => EmptyString
  | S n' => String ch (repeated ch n')
  end.

Definition longLine : string := repeated "x" (Z.to_nat MaxScanTokenSize).

Definition longDisk : Disk :=
  writeFile (fun _ => None) "long.txt"
    (linesText ["5.6.7.8:8080:alice:secret"]
     +++ (longLine +++ String LF (linesText ["1.2.3.4:8080"]))).

(** * Theorems *)

(** ** Strings *)

Lemma append_nil_r (s : string) : s +++ "" = s.
Proof. induction s as [|ch s IH]; simpl; [reflexivity | now rewrite IH]. Qed.

Lemma append_assoc (s t u : string) : (s +++ t) +++ u = s +++ (t +++ u).
Proof. induction s as [|ch s IH]; simpl; [reflexivity | now rewrite IH]. Qed.

Lemma length_append (s t : string) :
  String.length (s +++ t) = (String.length s + String.length t)%nat.
Proof. induction s as [|ch s IH]; simpl; [reflexivity | now rewrite IH]. Qed.

Lemma nonempty_true (s : string) : nonempty s = true <-> s <> "".
Proof.
  unfold nonempty. rewrite negb_true_iff. apply String.eqb_neq.
Qed.

Lemma nonempty_false (s : string) : nonempty s = false <-> s = "".
Proof.
  unfold nonempty. rewrite negb_false_iff. apply String.eqb_eq.
Qed.

(** [Split] never gives the empty slice. *)
Lemma Split_not_nil (s : string) (sep : ascii) : strings.Split s sep <> [].
Proof.
  destruct s as [|ch rest]; simpl; [discriminate|].
  destruct (Ascii.eqb ch sep); [discriminate|].
  destruct (strings.Split rest sep); discriminate.
Qed.

(** [Split] gives one field more than there are separators. *)
Lemma length_Split (s : string) (sep : ascii) :
  length (strings.Split s sep) = S (strings.Count s sep).
Proof.
  induction s as [|ch rest IH]; simpl; [reflexivity|].
  destruct (Ascii.eqb ch sep); simpl; [now rewrite IH|].
  destruct (strings.Split rest sep) as [|field fields] eqn:E; simpl in *.
  - discriminate.
  - exact IH.
Qed.

(** Joining the fields with the separator gives the string back. *)
Lemma Join_Split (s : string) (sep : ascii) :
  strings.Join (strings.Split s sep) sep = s.
Proof.
  induction s as [|ch rest IH]; simpl; [reflexivity|].
  destruct (Ascii.eqb_spec ch sep) as [->|Hne].
  - pose proof (Split_not_nil rest sep) as Hnil.
    destruct (strings.Split rest sep) as [|field fields]; [contradiction|].
    simpl. now rewrite <- IH.
  - pose proof (Split_not_nil rest sep) as Hnil.
    destruct (strings.Split rest sep) as [|field fields]; [contradiction|].
    destruct fields as [|field' fields]; simpl in *; now rewrite <- IH.
Qed.

(** No field contains the separator. *)
Lemma Split_fields_clean (s : string) (sep : ascii) :
  Forall (fun field => strings.Count field sep = 0%nat) (strings.Split s sep).
Proof.
  induction s as [|ch rest IH]; simpl.
  - constructor; [reflexivity | constructor].
  - destruct (Ascii.eqb ch sep) eqn:E.
    + constructor; [reflexivity | exact IH].
    + destruct (strings.Split rest sep) as [|field fields].
      * constructor; [simpl; now rewrite E | constructor].
      * inversion IH as [|? ? Hfield Hfields]; subst.
        constructor; [simpl; now rewrite E | exact Hfields].
Qed.

(** A line of two fields is the two fields around one colon. *)
Lemma two_fields (line : string) :
  fieldCount line = 2%nat ->
  line = index (strings.Split line ":") 0 +++ ":"
         +++ index (strings.Split line ":") 1.
Proof.
  unfold fieldCount, index. intros Hlen.
  pose proof (Join_Split line ":") as HJ.
  destruct (strings.Split line ":") as [|a [|b [|c l]]]; try discriminate.
  simpl in *. rewrite append_assoc. simpl. now symmetry.
Qed.

(** A line of four fields is the four fields around three colons. *)
Lemma four_fields (line : string) :
  fieldCount line = 4%nat ->
  line = index (strings.Split line ":") 0 +++ ":"
         +++ index (strings.Split line ":") 1 +++ ":"
         +++ index (strings.Split line ":") 2 +++ ":"
         +++ index (strings.Split line ":") 3.
Proof.
  unfold fieldCount, index. intros Hlen.
  pose proof (Join_Split line ":") as HJ.
  destruct (strings.Split line ":") as [|a [|b [|c [|d [|e l]]]]];
    try discriminate.
  simpl in *. repeat (rewrite append_assoc; simpl). now symmetry.
Qed.

(** ** Parsing: [stringToProxy], [rawString], [loadProxies] *)

(** What [stringToProxy] returns, by the number of fields of the line. *)
Lemma stringToProxy_two (line : string) :
  fieldCount line = 2%nat ->
  stringToProxy line =
    (mkProxy (index (strings.Split line ":") 0)
             (index (strings.Split line ":") 1) "" "", None).
Proof. unfold fieldCount, stringToProxy. now intros ->. Qed.

Lemma stringToProxy_four (line : string) :
  fieldCount line = 4%nat ->
  stringToProxy line =
    (mkProxy (index (strings.Split line ":") 0)
             (index (strings.Split line ":") 1)
             (index (strings.Split line ":") 2)
             (index (strings.Split line ":") 3), None).
Proof. unfold fieldCount, stringToProxy. now intros ->. Qed.

Lemma stringToProxy_other (line : string) :
  fieldCount line <> 2%nat -> fieldCount line <> 4%nat ->
  stringToProxy line =
    (mkProxy "" "" "" "", Some (errors_New "Error parsing proxy")).
Proof.
  unfold fieldCount, stringToProxy. intros H2 H4.
  apply Nat.eqb_neq in H2, H4. now rewrite H2, H4.
Qed.

(** Parsing succeeds exactly on the lines of two or four fields. *)
Lemma stringToProxy_ok_iff (line : string) :
  snd (stringToProxy line) = None <-> validLine line.
Proof.
  unfold validLine.
  destruct (Nat.eq_dec (fieldCount line) 2) as [H2|H2].
  - rewrite (stringToProxy_two _ H2). simpl. tauto.
  - destruct (Nat.eq_dec (fieldCount line) 4) as [H4|H4].
    + rewrite (stringToProxy_four _ H4). simpl. tauto.
    + rewrite (stringToProxy_other _ H2 H4). simpl.
      split; [discriminate | tauto].
Qed.

(** The raw form of a record without both credentials is [ip:port]. *)
Lemma rawString_short (p : Proxy) :
  User p = "" \/ Pass p = "" -> rawString p = IP p +++ ":" +++ Port p.
Proof.
  unfold rawString. intros [H|H]; apply nonempty_false in H; rewrite H.
  - reflexivity.
  - now rewrite andb_false_r.
Qed.

Lemma conString_short (p : Proxy) :
  User p = "" \/ Pass p = "" -> conString p = IP p +++ ":" +++ Port p.
Proof.
  unfold conString. intros [H|H]; apply nonempty_false in H; rewrite H.
  - reflexivity.
  - now rewrite andb_false_r.
Qed.

Lemma rawString_long (p : Proxy) :
  User p <> "" -> Pass p <> "" ->
  rawString p = IP p +++ ":" +++ Port p +++ ":" +++ User p +++ ":" +++ Pass p.
Proof.
  unfold rawString. intros HU HP.
  apply nonempty_true in HU, HP. now rewrite HU, HP.
Qed.

(** C3, as the claim states it, fails: this line has four
    colon-delimited fields and parses, but its raw form is
    [5.6.7.8:8080], the password being dropped with the empty user. *)
Lemma C3_counterexample :
  validLine "5.6.7.8:8080::secret" /\ ~ roundTrips "5.6.7.8:8080::secret".
Proof.
  split.
  - right. reflexivity.
  - intros [_ Hraw]. vm_compute in Hraw. discriminate.
Qed.

(** C3 (amended): every line of two or of four fields parses.  A line
    of two fields gives a record whose raw form is the line, character
    for character; a line of four fields does so exactly when its user
    and password fields are both non-empty; a line of four fields with
    an empty user or password field parses all the same, but the raw
    form of its record is only [host:port]. *)
Theorem C3_raw_form_round_trip (line : string) :
  validLine line ->
  snd (stringToProxy line) = None /\
  (roundTrips line <->
   (fieldCount line = 4%nat ->
    index (strings.Split line ":") 2 <> "" /\
    index (strings.Split line ":") 3 <> "")) /\
  (fieldCount line = 4%nat ->
   index (strings.Split line ":") 2 = "" \/
   index (strings.Split line ":") 3 = "" ->
   rawString (fst (stringToProxy line))
   = index (strings.Split line ":") 0 +++ ":"
     +++ index (strings.Split line ":") 1).
Proof.
  intros Hvalid.
  split; [now apply stringToProxy_ok_iff|]. split.
  - destruct Hvalid as [H2|H4]; unfold roundTrips.
    + rewrite (stringToProxy_two _ H2). simpl. split.
      * intros _ H4. rewrite H2 in H4. discriminate.
      * intros _. split; [reflexivity|].
        rewrite rawString_short by (now left). simpl.
        symmetry. now apply two_fields.
    + rewrite (stringToProxy_four _ H4). simpl.
      set (parts := strings.Split line ":") in *.
      pose proof (four_fields _ H4) as Hline. fold parts in Hline.
      split.
      * intros [_ Hraw] _.
        destruct (String.eqb_spec (index parts 2) "") as [HU|HU];
          [|destruct (String.eqb_spec (index parts 3) "") as [HP|HP]];
          [exfalso | exfalso | now split].
        -- rewrite rawString_short in Hraw by (now left). simpl in Hraw.
           apply (f_equal String.length) in Hraw, Hline.
           repeat rewrite length_append in Hraw.
           repeat rewrite length_append in Hline.
           simpl in Hraw, Hline. lia.
        -- rewrite rawString_short in Hraw by (now right). simpl in Hraw.
           apply (f_equal String.length) in Hraw, Hline.
           repeat rewrite length_append in Hraw.
           repeat rewrite length_append in Hline.
           simpl in Hraw, Hline. lia.
      * intros Hcred. destruct (Hcred H4) as [HU HP].
        split; [reflexivity|].
        rewrite rawString_long by assumption. simpl. now symmetry.
  - intros H4 Hempty. rewrite (stringToProxy_four _ H4). simpl.
    now rewrite rawString_short.
Qed.

Lemma C3_raw_form_round_trip_witness :
  let line := "5.6.7.8:8080::secret" in
  snd (stringToProxy line) = None /\
  (roundTrips line <->
   (fieldCount line = 4%nat ->
    index (strings.Split line ":") 2 <> "" /\
    index (strings.Split line ":") 3 <> "")) /\
  (fieldCount line = 4%nat ->
   index (strings.Split line ":") 2 = "" \/
   index (strings.Split line ":") 3 = "" ->
   rawString (fst (stringToProxy line))
   = index (strings.Split line ":") 0 +++ ":"
     +++ index (strings.Split line ":") 1).
Proof.
  intros line.
  apply (C3_raw_form_round_trip line).
  right. reflexivity.
Defined.

(** The scanning loop over two stretches of lines. *)
Lemma scanLines_app (before after : list string) (acc : list Proxy) :
  scanLines (before ++ after) acc = scanLines after (scanLines before acc).
Proof. unfold scanLines. apply fold_left_app. Qed.

(** C6: a line whose number of colon-delimited fields is neither two
    nor four makes [stringToProxy] return its parse error (with the
    zero record), adds no record to the list being loaded, and does not
    stop the load: the file loads as it would without that line, with a
    nil error. *)
Theorem C6_malformed_line_is_skipped (line : string) :
  fieldCount line <> 2%nat -> fieldCount line <> 4%nat ->
  stringToProxy line =
    (mkProxy "" "" "" "", Some (errors_New "Error parsing proxy")) /\
  (forall acc, loadLine acc line = acc) /\
  (forall os_Open filePath before after,
      os_Open filePath = (before ++ line :: after, None) ->
      loadProxies os_Open filePath = (scanLines (before ++ after) [], None)).
Proof.
  intros H2 H4.
  pose proof (stringToProxy_other line H2 H4) as Hparse.
  assert (Hskip : forall acc, loadLine acc line = acc).
  { intros acc. unfold loadLine. now rewrite Hparse. }
  split; [exact Hparse | split; [exact Hskip|]].
  intros os_Open filePath before after Hopen.
  unfold loadProxies. rewrite Hopen. f_equal.
  rewrite !scanLines_app. simpl. unfold scanLines at 2. simpl.
  now rewrite Hskip.
Qed.

Lemma C6_malformed_line_is_skipped_witness :
  stringToProxy "1.2.3.4:8080:alice" =
    (mkProxy "" "" "" "", Some (errors_New "Error parsing proxy")) /\
  (forall acc, loadLine acc "1.2.3.4:8080:alice" = acc) /\
  (forall os_Open filePath before after,
      os_Open filePath = (before ++ "1.2.3.4:8080:alice" :: after, None) ->
      loadProxies os_Open filePath = (scanLines (before ++ after) [], None)).
Proof.
  apply (C6_malformed_line_is_skipped "1.2.3.4:8080:alice");
    vm_compute; discriminate.
Defined.

(** C7, as the claim states it, fails: this line parses, and the record
    has a username and no password. *)
Lemma C7_counterexample :
  snd (stringToProxy "1.2.3.4:8080:alice:") = None /\
  ~ credentialsInvariant (fst (stringToProxy "1.2.3.4:8080:alice:")).
Proof.
  split; [reflexivity|].
  intros [[_ HP]|[HU _]]; vm_compute in *; [now apply HP | discriminate].
Qed.

(** C7 (amended): a record parsed from a line of two fields has neither
    username nor password; a record parsed from a line of four fields
    carries the third and fourth fields as they are, so it has both or
    neither exactly when those two fields are both non-empty or both
    empty; and a record with only one of the two is treated by both
    string projections as having none. *)
Theorem C7_credentials_of_parsed_record (line : string) (p : Proxy) :
  stringToProxy line = (p, None) ->
  (fieldCount line = 2%nat -> User p = "" /\ Pass p = "") /\
  (fieldCount line <> 2%nat ->
     fieldCount line = 4%nat /\
     User p = index (strings.Split line ":") 2 /\
     Pass p = index (strings.Split line ":") 3) /\
  (credentialsInvariant p <-> ~ partialCredentials p) /\
  (partialCredentials p ->
     rawString p = IP p +++ ":" +++ Port p /\
     conString p = IP p +++ ":" +++ Port p).
Proof.
  intros Hparse.
  split; [|split; [|split]].
  - intros H2. rewrite (stringToProxy_two _ H2) in Hparse.
    injection Hparse as <-. now split.
  - intros H2.
    assert (Hvalid : validLine line).
    { apply stringToProxy_ok_iff. now rewrite Hparse. }
    destruct Hvalid as [H2'|H4]; [contradiction|].
    rewrite (stringToProxy_four _ H4) in Hparse.
    injection Hparse as <-. now repeat split.
  - unfold credentialsInvariant, partialCredentials.
    destruct (String.eqb_spec (User p) ""), (String.eqb_spec (Pass p) "");
      intuition congruence.
  - intros [[HU _]|[_ HP]].
    + split; [apply rawString_short | apply conString_short]; now left.
    + split; [apply rawString_short | apply conString_short]; now right.
Qed.

Lemma C7_credentials_of_parsed_record_witness :
  let line := "1.2.3.4:8080:alice:" in
  let p := mkProxy "1.2.3.4" "8080" "alice" "" in
  (fieldCount line = 2%nat -> User p = "" /\ Pass p = "") /\
  (fieldCount line <> 2%nat ->
     fieldCount line = 4%nat /\
     User p = index (strings.Split line ":") 2 /\
     Pass p = index (strings.Split line ":") 3) /\
  (credentialsInvariant p <-> ~ partialCredentials p) /\
  (partialCredentials p ->
     rawString p = IP p +++ ":" +++ Port p /\
     conString p = IP p +++ ":" +++ Port p).
Proof.
  intros line p.
  apply (C7_credentials_of_parsed_record line p). reflexivity.
Defined.

(** ** The prober: [testProxy] *)

Section Prober.

Variable lib : Lib.
Variable net : Net.
Variable proxy : Proxy.
Variable endpoint : string.

(** The client of a probe is the one [clientFor] describes, and the
    branch taken depends on [http.NewRequest] only: the error of
    [url.Parse] is never read. *)
Lemma testProxy_unfold :
  testProxy lib net proxy endpoint =
    match http_NewRequest lib "GET" endpoint with
    | (None, _) => ProbePanics
    | (Some req, Some _) => ProbeReturns []
    | (Some req, None) =>
        match Do net (clientFor lib proxy) (withHeaders req) with
        | (_, Some _) =>
            ProbeReturns
              [mkResult proxy (clock_end net - clock_start net) (-1) false]
        | (None, None) => ProbePanics
        | (Some resp, None) =>
            ProbeReturns
              [mkResult proxy (clock_end net - clock_start net)
                        (RespStatusCode resp) true]
        end
    end.
Proof.
  unfold testProxy, clientFor, withHeaders.
  destruct (url_Parse lib (conString proxy)) as [proxyURL perr]. simpl.
  destruct (http_NewRequest lib "GET" endpoint) as [[req|] [e|]];
    try reflexivity.
  destruct (Do net _ _) as [[resp|] [e|]]; reflexivity.
Qed.

(** A probe sends at most one result. *)
Lemma testProxy_sends_at_most_one :
  (length (sentBy (testProxy lib net proxy endpoint)) <= 1)%nat.
Proof.
  rewrite testProxy_unfold.
  destruct (http_NewRequest lib "GET" endpoint) as [[req|] [e|]];
    simpl; try lia.
  destruct (Do net _ _) as [[resp|] [e|]]; simpl; lia.
Qed.

(** What can be said of a result a probe sent. *)
Lemma testProxy_outcome (result : ProxyTestResult) :
  In result (sentBy (testProxy lib net proxy endpoint)) ->
  exists req,
    http_NewRequest lib "GET" endpoint = (Some req, None) /\
    ProxyUsed result = proxy /\
    Speed result = clock_end net - clock_start net /\
    (Success result = false ->
       StatusCode result = -1 /\
       snd (Do net (clientFor lib proxy) (withHeaders req)) <> None) /\
    (Success result = true ->
       exists resp,
         Do net (clientFor lib proxy) (withHeaders req) = (Some resp, None) /\
         StatusCode result = RespStatusCode resp).
Proof.
  rewrite testProxy_unfold.
  destruct (http_NewRequest lib "GET" endpoint) as [[req|] [e|]];
    simpl; try tauto.
  destruct (Do net _ _) as [[resp|] [e|]] eqn:HDo; simpl; try tauto;
    intros [<-|[]]; exists req; simpl;
    (split; [reflexivity|]); (split; [reflexivity|]);
    (split; [reflexivity|]); split; intros HS; try discriminate HS.
  - split; [reflexivity | rewrite HDo; discriminate].
  - now exists resp.
  - split; [reflexivity | rewrite HDo; discriminate].
Qed.

(** C4 (amended): every outcome a probe emits names the proxy probed
    and records the elapsed time between the two clock readings; if its
    flag is false the client reported an error and its status code is
    the sentinel -1; if its flag is true its status code is the status
    code of the response the client returned, whatever that number is
    (the probe checks no range). *)
Theorem C4_outcome_of_probe (result : ProxyTestResult) :
  In result (sentBy (testProxy lib net proxy endpoint)) ->
  exists req,
    http_NewRequest lib "GET" endpoint = (Some req, None) /\
    ProxyUsed result = proxy /\
    Speed result = clock_end net - clock_start net /\
    (Success result = false ->
       StatusCode result = -1 /\
       snd (Do net (clientFor lib proxy) (withHeaders req)) <> None) /\
    (Success result = true ->
       exists resp,
         Do net (clientFor lib proxy) (withHeaders req) = (Some resp, None) /\
         StatusCode result = RespStatusCode resp).
Proof. exact (testProxy_outcome result). Qed.

(** C5: when [http.NewRequest] fails it returns a nil request, and the
    probe then panics at [req.Header.Add], before it reaches the test
    of [err]: nothing is sent, but the call does not return quietly. *)
Theorem C5_request_construction_failure (e : error) :
  http_NewRequest lib "GET" endpoint = (None, Some e) ->
  testProxy lib net proxy endpoint = ProbePanics /\
  sentBy (testProxy lib net proxy endpoint) = [].
Proof.
  intros HNew. rewrite testProxy_unfold, HNew. now split.
Qed.

(** A probe whose request is built, on a client that keeps its
    contract, returns with exactly one result sent. *)
Lemma testProxy_sends_one (req : Request) :
  http_NewRequest lib "GET" endpoint = (Some req, None) ->
  doContract net ->
  exists result, testProxy lib net proxy endpoint = ProbeReturns [result].
Proof.
  intros HNew HDo. rewrite testProxy_unfold, HNew.
  specialize (HDo (clientFor lib proxy) (withHeaders req)).
  destruct (Do net _ _) as [[resp|] [e|]]; try contradiction; eauto.
Qed.

(** C10: when the connection form of the proxy does not parse as a URL,
    the probe goes on: its client is built with a nil proxy URL, and
    once the request is built the probe returns having sent exactly one
    result for that proxy, read off the answer of that client. *)
Theorem C10_unparsable_proxy_is_still_probed (e : error) (req : Request) :
  url_Parse lib (conString proxy) = (None, Some e) ->
  http_NewRequest lib "GET" endpoint = (Some req, None) ->
  doContract net ->
  let direct := mkClient (mkTransport None) (10 * time_Second) in
  clientFor lib proxy = direct /\
  exists result,
    testProxy lib net proxy endpoint = ProbeReturns [result] /\
    ProxyUsed result = proxy /\
    (Success result = false ->
       snd (Do net direct (withHeaders req)) <> None) /\
    (Success result = true ->
       exists resp,
         Do net direct (withHeaders req) = (Some resp, None) /\
         StatusCode result = RespStatusCode resp).
Proof.
  intros HParse HNew HDo direct.
  assert (Hclient : clientFor lib proxy = direct).
  { unfold clientFor. now rewrite HParse. }
  split; [exact Hclient|].
  destruct (testProxy_sends_one req HNew HDo) as [result Hsent].
  exists result. split; [exact Hsent|].
  destruct (testProxy_outcome result) as [req' (HNew' & HP & _ & HF & HT)].
  - rewrite Hsent. now left.
  - rewrite HNew in HNew'. injection HNew' as <-.
    rewrite Hclient in HF, HT.
    split; [exact HP | split; [|exact HT]].
    intros HS. now apply HF.
Qed.

End Prober.

(** The two records of the scenarios below. *)
Lemma scenario_records :
  scanLines ["1.2.3.4:8080"; "5.6.7.8:8080:alice:secret"] [] =
    [mkProxy "1.2.3.4" "8080" "" "";
     mkProxy "5.6.7.8" "8080" "alice" "secret"].
Proof. reflexivity. Qed.

(** C4, as the claim states it, fails: the client hands over whatever
    three-digit status the server sent, here 999, and the probe emits
    it with the flag set. *)
Lemma C4_counterexample :
  let result := mkResult (mkProxy "1.2.3.4" "8080" "" "") 50 999 true in
  In result
     (sentBy (testProxy stubLib (netStatus 999 50)
                        (mkProxy "1.2.3.4" "8080" "" "")
                        "https://example.com")) /\
  ~ specOutcomeInvariant result.
Proof.
  split.
  - left. reflexivity.
  - intros [_ Hrange]. specialize (Hrange eq_refl). simpl in Hrange. lia.
Qed.

Lemma C4_outcome_of_probe_witness :
  let proxy := mkProxy "5.6.7.8" "8080" "alice" "secret" in
  let net := netStatus 200 400000000 in
  let result := mkResult proxy 400000000 200 true in
  exists req,
    http_NewRequest stubLib "GET" "https://example.com" = (Some req, None) /\
    ProxyUsed result = proxy /\
    Speed result = clock_end net - clock_start net /\
    (Success result = false ->
       StatusCode result = -1 /\
       snd (Do net (clientFor stubLib proxy) (withHeaders req)) <> None) /\
    (Success result = true ->
       exists resp,
         Do net (clientFor stubLib proxy) (withHeaders req)
           = (Some resp, None) /\
         StatusCode result = RespStatusCode resp).
Proof.
  intros proxy net result.
  apply (C4_outcome_of_probe stubLib net proxy "https://example.com" result).
  left. reflexivity.
Defined.

Lemma C5_request_construction_failure_witness :
  testProxy stubLib netTimeout (mkProxy "1.2.3.4" "8080" "" "")
            "https://%zz" = ProbePanics /\
  sentBy (testProxy stubLib netTimeout (mkProxy "1.2.3.4" "8080" "" "")
                    "https://%zz") = [].
Proof.
  apply (C5_request_construction_failure stubLib netTimeout
           (mkProxy "1.2.3.4" "8080" "" "") "https://%zz"
           (errors_New "invalid URL")).
  reflexivity.
Defined.

Lemma C10_unparsable_proxy_is_still_probed_witness :
  let proxy := mkProxy "1.2.3.4" "8080" "" "" in
  let net := netStatus 200 400000000 in
  let direct := mkClient (mkTransport None) (10 * time_Second) in
  clientFor stubLib proxy = direct /\
  exists result,
    testProxy stubLib net proxy "https://example.com"
      = ProbeReturns [result] /\
    ProxyUsed result = proxy /\
    (Success result = false ->
       snd (Do net direct
               (withHeaders (mkRequest "GET" "https://example.com" [])))
         <> None) /\
    (Success result = true ->
       exists resp,
         Do net direct
            (withHeaders (mkRequest "GET" "https://example.com" []))
           = (Some resp, None) /\
         StatusCode result = RespStatusCode resp).
Proof.
  intros proxy net direct.
  apply (C10_unparsable_proxy_is_still_probed stubLib net proxy
           "https://example.com"
           (errors_New "first path segment in URL cannot contain colon")
           (mkRequest "GET" "https://example.com" [])).
  - reflexivity.
  - reflexivity.
  - intros client req. simpl. discriminate.
Defined.

(** ** The aggregator: [handleProxyResult] *)

(** One iteration treats a result as its disposition says. *)
Lemma handleOne_disposition (result : ProxyTestResult) :
  classifiedAs result (disposition result).
Proof.
  intros good bad tr. unfold handleOne, disposition.
  destruct (Success result && (StatusCode result >=? 200)
            && (StatusCode result <? 400)); simpl.
  - now rewrite <- app_assoc.
  - destruct (StatusCode result =? -1); simpl; now rewrite <- app_assoc.
Qed.

(** Under the prober's convention the disposition is the one the
    specification words give. *)
Lemma disposition_spec (result : ProxyTestResult) :
  sentinelConvention result ->
  disposition result = specDisposition (Success result) (StatusCode result).
Proof.
  intros [HF HT]. unfold disposition, specDisposition.
  destruct (Success result); simpl.
  - specialize (HT eq_refl).
    replace (StatusCode result >=? 200) with (200 <=? StatusCode result)
      by (rewrite Z.geb_leb; reflexivity).
    replace (StatusCode result <? 400) with (StatusCode result <=? 399)
      by (destruct (Z.leb_spec (StatusCode result) 399),
                   (Z.ltb_spec (StatusCode result) 400); lia || reflexivity).
    destruct ((200 <=? StatusCode result) && (StatusCode result <=? 399));
      [reflexivity|].
    destruct (Z.eqb_spec (StatusCode result) (-1)); [contradiction|reflexivity].
  - rewrite (HF eq_refl). reflexivity.
Qed.

(** What a probe sends keeps the convention, as long as the client
    never reports the status -1. *)
Lemma testProxy_sentinelConvention (lib : Lib) (net : Net) (proxy : Proxy)
    (endpoint : string) (result : ProxyTestResult) :
  In result (sentBy (testProxy lib net proxy endpoint)) ->
  (forall client req resp,
      Do net client req = (Some resp, None) -> RespStatusCode resp <> -1) ->
  sentinelConvention result.
Proof.
  intros Hin Hstatus.
  destruct (testProxy_outcome lib net proxy endpoint result Hin)
    as [req (_ & _ & _ & HF & HT)].
  split.
  - intros HS. now apply HF.
  - intros HS. destruct (HT HS) as [resp [HDo ->]].
    now apply (Hstatus _ _ _ HDo).
Qed.

Lemma goodOf_app (rs rs' : list ProxyTestResult) :
  goodOf (rs ++ rs') = goodOf rs ++ goodOf rs'.
Proof. unfold goodOf. now rewrite filter_app, map_app. Qed.

Lemma badOf_app (rs rs' : list ProxyTestResult) :
  badOf (rs ++ rs') = badOf rs ++ badOf rs'.
Proof. unfold badOf. now rewrite filter_app, map_app. Qed.

(** Every result is counted in exactly one of the two lists. *)
Lemma good_bad_length (rs : list ProxyTestResult) :
  (length (goodOf rs) + length (badOf rs) = length rs)%nat.
Proof.
  unfold goodOf, badOf. rewrite !length_map.
  induction rs as [|r rs IH]; simpl; [reflexivity|].
  destruct (isBad r); simpl; lia.
Qed.

(** One iteration, in terms of [goodOf], [badOf] and [eventsOf]. *)
Lemma handleOne_eq (result : ProxyTestResult)
    (good bad : list string) (tr : list Event) :
  handleOne result good bad tr =
    (good ++ goodOf [result], bad ++ badOf [result], tr ++ eventsOf result).
Proof.
  rewrite (handleOne_disposition result good bad tr).
  unfold goodOf, badOf, isBad, eventsOf. simpl.
  destruct (disposition result); simpl; now rewrite ?app_nil_r.
Qed.

Lemma received_app (tr tr' : list Event) :
  received (tr ++ tr') = received tr ++ received tr'.
Proof.
  induction tr as [|ev tr IH]; simpl; [reflexivity|].
  destruct ev; simpl; now rewrite IH.
Qed.

(** The trace of a stretch of iterations shows the results received, in
    order, and no closing of the channel. *)
Lemma received_events (rs : list ProxyTestResult) :
  received (flat_map eventsOf rs) = rs.
Proof.
  induction rs as [|r rs IH]; simpl; [reflexivity|].
  destruct (disposition r); simpl; now rewrite IH.
Qed.

Lemma no_Close_in_events (rs : list ProxyTestResult) :
  ~ In Close (flat_map eventsOf rs).
Proof.
  induction rs as [|r rs IH]; simpl; [tauto|].
  intros [H|[H|[H|H]]]; try discriminate; [|tauto].
  destruct (disposition r); discriminate.
Qed.

(** With enough values to come, the loop runs its iterations, closes the
    channel and returns. *)
Lemma aggLoop_returns (n : nat) : forall st,
  (n <= length (pending st))%nat ->
  aggLoop n st =
    Returned (mkAgg (skipn n (pending st))
                    (i st + Z.of_nat n)
                    (goodProxies st ++ goodOf (firstn n (pending st)))
                    (badProxies st ++ badOf (firstn n (pending st)))
                    (trace st ++ flat_map eventsOf (firstn n (pending st))
                       ++ [Close])
                    true).
Proof.
  induction n as [|n IH]; intros st Hlen.
  - simpl. unfold goodOf, badOf. simpl.
    now rewrite !app_nil_r, Z.add_0_r.
  - destruct (pending st) as [|result rest] eqn:Hpending;
      [simpl in Hlen; lia|].
    cbn [aggLoop]. rewrite Hpending, handleOne_eq.
    rewrite IH by (simpl in *; lia).
    cbn [pending i goodProxies badProxies trace firstn skipn flat_map].
    change (result :: firstn n rest) with ([result] ++ firstn n rest).
    rewrite goodOf_app, badOf_app, <- !app_assoc.
    do 2 f_equal. lia.
Qed.

(** With too few values to come, the loop consumes them all and then
    waits for ever, the channel still open. *)
Lemma aggLoop_blocks (n : nat) : forall st,
  (length (pending st) < n)%nat ->
  closed st = false ->
  aggLoop n st =
    Blocked (mkAgg []
                   (i st + Z.of_nat (length (pending st)))
                   (goodProxies st ++ goodOf (pending st))
                   (badProxies st ++ badOf (pending st))
                   (trace st ++ flat_map eventsOf (pending st))
                   false).
Proof.
  induction n as [|n IH]; intros st Hlen Hopen; [lia|].
  destruct st as [p k good bad tr cl]. simpl in *. subst cl.
  destruct p as [|result rest].
  - unfold goodOf, badOf. simpl. now rewrite !app_nil_r, Z.add_0_r.
  - rewrite handleOne_eq, IH by (simpl in *; lia || reflexivity).
    cbn [pending i goodProxies badProxies trace flat_map length].
    change (result :: rest) with ([result] ++ rest).
    rewrite goodOf_app, badOf_app, <- !app_assoc.
    do 2 f_equal. lia.
Qed.

(** The outcome invariant of the specification implies the prober's
    convention. *)
Lemma specOutcomeInvariant_sentinel (result : ProxyTestResult) :
  specOutcomeInvariant result -> sentinelConvention result.
Proof.
  intros [HF HT]. split; [exact HF|].
  intros HS. specialize (HT HS). lia.
Qed.

(** What a probe sends meets the outcome invariant of the
    specification whenever the client's status codes are in [100,599]. *)
Lemma testProxy_specOutcomeInvariant (lib : Lib) (net : Net) (proxy : Proxy)
    (endpoint : string) (result : ProxyTestResult) :
  In result (sentBy (testProxy lib net proxy endpoint)) ->
  (forall client req resp,
      Do net client req = (Some resp, None) ->
      100 <= RespStatusCode resp <= 599) ->
  specOutcomeInvariant result.
Proof.
  intros Hin Hstatus.
  destruct (testProxy_outcome lib net proxy endpoint result Hin)
    as [req (_ & _ & _ & HF & HT)].
  split.
  - intros HS. now apply HF.
  - intros HS. destruct (HT HS) as [resp [HDo ->]].
    now apply (Hstatus _ _ _ HDo).
Qed.

(** C1: for every outcome the aggregator receives, that is, every
    outcome that meets the outcome invariant of the specification or,
    more generally, keeps the prober's convention that the flag is
    false exactly when the status is -1 (as everything [testProxy]
    sends does, see [testProxy_sentinelConvention]), the treatment is
    the function of flag and status the specification gives: flag
    false is Failed and appended to [bad]; flag true with a status in
    [200,399] is Working; flag true with any other status is Suspect;
    Working and Suspect are appended to [good].  In particular status
    403 with the flag true is appended to [good], not to [bad]. *)
Theorem C1_classification (result : ProxyTestResult) :
  specOutcomeInvariant result \/ sentinelConvention result ->
  classifiedAs result (specDisposition (Success result) (StatusCode result)) /\
  (Success result = false -> classifiedAs result Failed) /\
  (Success result = true -> 200 <= StatusCode result <= 399 ->
     classifiedAs result Working) /\
  (Success result = true -> ~ 200 <= StatusCode result <= 399 ->
     classifiedAs result Suspect) /\
  (Success result = true -> StatusCode result = 403 ->
     forall good bad tr,
       fst (handleOne result good bad tr) =
         (good ++ [rawString (ProxyUsed result)], bad)).
Proof.
  intros Hmeets.
  assert (Hconv : sentinelConvention result).
  { destruct Hmeets as [H|H];
      [now apply specOutcomeInvariant_sentinel | exact H]. }
  assert (Hspec : classifiedAs result
            (specDisposition (Success result) (StatusCode result))).
  { rewrite <- disposition_spec by exact Hconv.
    apply handleOne_disposition. }
  split; [exact Hspec|].
  unfold specDisposition in Hspec.
  split; [|split; [|split]].
  - intros HS. now rewrite HS in Hspec.
  - intros HS Hrange. rewrite HS in Hspec. simpl in Hspec.
    replace ((200 <=? StatusCode result) && (StatusCode result <=? 399))
      with true in Hspec; [exact Hspec|].
    symmetry. apply andb_true_iff. split; apply Z.leb_le; lia.
  - intros HS Hrange. rewrite HS in Hspec. simpl in Hspec.
    replace ((200 <=? StatusCode result) && (StatusCode result <=? 399))
      with false in Hspec; [exact Hspec|].
    symmetry. apply andb_false_iff.
    destruct (Z.leb_spec 200 (StatusCode result));
      destruct (Z.leb_spec (StatusCode result) 399); auto; lia.
  - intros HS H403 good bad tr.
    rewrite HS, H403 in Hspec. simpl in Hspec. now rewrite Hspec.
Qed.

Lemma C1_classification_witness :
  let result := mkResult (mkProxy "1.2.3.4" "8080" "" "") 120 403 true in
  classifiedAs result (specDisposition (Success result) (StatusCode result)) /\
  (Success result = false -> classifiedAs result Failed) /\
  (Success result = true -> 200 <= StatusCode result <= 399 ->
     classifiedAs result Working) /\
  (Success result = true -> ~ 200 <= StatusCode result <= 399 ->
     classifiedAs result Suspect) /\
  (Success result = true -> StatusCode result = 403 ->
     forall good bad tr,
       fst (handleOne result good bad tr) =
         (good ++ [rawString (ProxyUsed result)], bad)).
Proof.
  intros result.
  apply (C1_classification result).
  left. split; simpl; [discriminate | lia].
Defined.

(** C2: for a batch of N records and an empty [good] and [bad], the
    aggregator returns, with the channel closed, once N values have
    arrived: it has then received exactly the first N values, the
    closing is the last thing it did, each value received went to
    exactly one of the two lists, and their lengths sum to N.  While
    fewer than N values have arrived it neither returns nor closes the
    channel. *)
Theorem C2_aggregator_consumes_exactly_N (c : list ProxyTestResult) (N : nat) :
  ((N <= length c)%nat ->
   exists final before,
     handleProxyResult c (Z.of_nat N) [] [] = Returned final /\
     closed final = true /\
     pending final = skipn N c /\
     trace final = before ++ [Close] /\
     ~ In Close before /\
     received before = firstn N c /\
     length (received before) = N /\
     goodProxies final = goodOf (firstn N c) /\
     badProxies final = badOf (firstn N c) /\
     (length (goodProxies final) + length (badProxies final))%nat = N) /\
  ((length c < N)%nat ->
   exists stuck,
     handleProxyResult c (Z.of_nat N) [] [] = Blocked stuck /\
     closed stuck = false /\
     ~ In Close (trace stuck) /\
     received (trace stuck) = c).
Proof.
  unfold handleProxyResult. rewrite Z.sub_0_r, Nat2Z.id. split.
  - intros Hlen. rewrite aggLoop_returns by exact Hlen. simpl.
    exists (mkAgg (skipn N c) (Z.of_nat N) (goodOf (firstn N c))
                  (badOf (firstn N c))
                  (flat_map eventsOf (firstn N c) ++ [Close]) true),
           (flat_map eventsOf (firstn N c)).
    simpl. repeat split.
    + apply no_Close_in_events.
    + apply received_events.
    + rewrite received_events. apply firstn_length_le. exact Hlen.
    + rewrite good_bad_length. apply firstn_length_le. exact Hlen.
  - intros Hlen. rewrite aggLoop_blocks by (simpl; lia || reflexivity).
    eexists. split; [reflexivity|]. simpl. repeat split.
    + apply no_Close_in_events.
    + apply received_events.
Qed.

Lemma C2_aggregator_consumes_exactly_N_witness :
  let c := [mkResult (mkProxy "5.6.7.8" "8080" "alice" "secret") 400 200 true;
            mkResult (mkProxy "1.2.3.4" "8080" "" "") 10000 (-1) false] in
  exists final before,
    handleProxyResult c 2 [] [] = Returned final /\
    closed final = true /\
    pending final = skipn 2 c /\
    trace final = before ++ [Close] /\
    ~ In Close before /\
    received before = firstn 2 c /\
    length (received before) = 2%nat /\
    goodProxies final = goodOf (firstn 2 c) /\
    badProxies final = badOf (firstn 2 c) /\
    (length (goodProxies final) + length (badProxies final))%nat = 2%nat.
Proof.
  intros c.
  apply (proj1 (C2_aggregator_consumes_exactly_N c 2)).
  simpl. lia.
Defined.

(** C8: the two lines load as two records; the probe of the first runs
    into a transport error, the probe of the second is answered with
    status 200; in whichever order the two results arrive, the
    aggregator returns with the second record's raw form as the only
    entry of [good] and the first's as the only entry of [bad]. *)
Theorem C8_scenario (lib : Lib) (net1 net2 : Net) (req : Request)
    (timeout : error) (stream : list ProxyTestResult) :
  let target := "https://example.com" in
  let proxies := scanLines ["1.2.3.4:8080"; "5.6.7.8:8080:alice:secret"] [] in
  let first := nth 0 proxies (mkProxy "" "" "" "") in
  let second := nth 1 proxies (mkProxy "" "" "" "") in
  http_NewRequest lib "GET" target = (Some req, None) ->
  Do net1 (clientFor lib first) (withHeaders req) = (None, Some timeout) ->
  Do net2 (clientFor lib second) (withHeaders req)
    = (Some (mkResponse 200), None) ->
  Permutation stream
    (sentBy (testProxy lib net1 first target)
     ++ sentBy (testProxy lib net2 second target)) ->
  exists final,
    handleProxyResult stream (Z.of_nat (length proxies)) [] []
      = Returned final /\
    goodProxies final = ["5.6.7.8:8080:alice:secret"] /\
    badProxies final = ["1.2.3.4:8080"].
Proof.
  intros target proxies first second HNew HDo1 HDo2 Hperm.
  rewrite !testProxy_unfold, HNew, HDo1, HDo2 in Hperm.
  cbn [sentBy app RespStatusCode] in Hperm.
  apply Permutation_sym, Permutation_length_2_inv in Hperm.
  destruct Hperm as [-> | ->]; eexists;
    (split; [reflexivity | split; reflexivity]).
Qed.

Lemma C8_scenario_witness :
  exists final,
    handleProxyResult
      [mkResult (mkProxy "5.6.7.8" "8080" "alice" "secret") 400000000 200 true;
       mkResult (mkProxy "1.2.3.4" "8080" "" "") 10000000000 (-1) false]
      2 [] [] = Returned final /\
    goodProxies final = ["5.6.7.8:8080:alice:secret"] /\
    badProxies final = ["1.2.3.4:8080"].
Proof.
  apply (C8_scenario stubLib netTimeout (netStatus 200 400000000)
           (mkRequest "GET" "https://example.com" [])
           (errors_New "context deadline exceeded")).
  - reflexivity.
  - reflexivity.
  - reflexivity.
  - vm_compute. apply perm_swap.
Defined.

(** ** The aggregator as a transition system *)

(** Once the channel is closed the aggregator takes no step. *)
Lemma aggStep_open (n : Z) (st st' : Agg) :
  aggStep n st st' -> closed st = false.
Proof. now intros [ ]. Qed.

(** The aggregator has at most one next state. *)
Lemma aggStep_deterministic (n : Z) (st a b : Agg) :
  aggStep n st a -> aggStep n st b -> a = b.
Proof.
  intros Ha Hb.
  destruct Ha as [st r1 rest1 g1 b1 t1 _ Hlt1 Hp1 Hh1 | st _ Hge1];
    inversion Hb as [st' r2 rest2 g2 b2 t2 _ Hlt2 Hp2 Hh2 | st' _ Hge2];
    subst; try contradiction; try reflexivity.
  rewrite Hp1 in Hp2. injection Hp2 as <- <-.
  rewrite Hh1 in Hh2. now injection Hh2 as <- <- <-.
Qed.

(** A run that ends with the channel closed ends where the loop of
    [handleProxyResult] returns. *)
Lemma aggRun_sound (n : Z) (st final : Agg) :
  aggRun n st final ->
  closed st = false -> closed final = true ->
  aggLoop (Z.to_nat (n - i st)) st = Returned final.
Proof.
  induction 1 as [st | st mid final Hstep Hrun IH]; intros Hopen Hclosed.
  - congruence.
  - destruct Hstep as [st result rest good bad tr _ Hlt Hp Hh | st _ Hge].
    + replace (Z.to_nat (n - i st)) with (S (Z.to_nat (n - (i st + 1))))
        by lia.
      cbn [aggLoop]. rewrite Hp, Hh. now apply IH.
    + replace (Z.to_nat (n - i st)) with 0%nat by lia.
      cbn [aggLoop].
      inversion Hrun as [|? mid' ? Hstep' _]; subst; [reflexivity|].
      apply aggStep_open in Hstep'. discriminate.
Qed.

(** Where the loop returns, a run leads. *)
Lemma aggRun_complete (n : Z) (k : nat) : forall st final,
  k = Z.to_nat (n - i st) ->
  closed st = false ->
  aggLoop k st = Returned final ->
  aggRun n st final.
Proof.
  induction k as [|k IH]; intros st final Hk Hopen Hloop.
  - cbn [aggLoop] in Hloop. injection Hloop as <-.
    eapply run_step; [|apply run_done].
    apply step_close; [exact Hopen | lia].
  - cbn [aggLoop] in Hloop.
    destruct (pending st) as [|result rest] eqn:Hp; [discriminate|].
    destruct (handleOne result (goodProxies st) (badProxies st) (trace st))
      as [[good bad] tr] eqn:Hh.
    eapply run_step.
    + eapply step_receive; [exact Hopen | lia | exact Hp | exact Hh].
    + apply IH; [simpl; lia | reflexivity | exact Hloop].
Qed.

(** A finished run of the aggregator from its start state: what the two
    lists hold. *)
Lemma aggRun_partition (n : Z) (c : list ProxyTestResult) (final : Agg) :
  aggRun n (aggStart c) final -> closed final = true ->
  (Z.to_nat n <= length c)%nat /\
  goodProxies final = goodOf (firstn (Z.to_nat n) c) /\
  badProxies final = badOf (firstn (Z.to_nat n) c).
Proof.
  intros Hrun Hclosed.
  apply aggRun_sound in Hrun; [|reflexivity|exact Hclosed].
  simpl in Hrun. rewrite Z.sub_0_r in Hrun.
  destruct (Nat.le_gt_cases (Z.to_nat n) (length c)) as [Hle|Hgt].
  - rewrite aggLoop_returns in Hrun by exact Hle.
    injection Hrun as <-. simpl. now repeat split.
  - rewrite aggLoop_blocks in Hrun by (simpl; lia || reflexivity).
    discriminate.
Qed.

(** C9: two finished runs of the aggregator over the same sequence of
    outcomes, each started on empty lists, end with the same [good] and
    the same [bad]; both are determined by the outcomes consumed, the
    first [numOfProxies] of the sequence, and by nothing else. *)
Theorem C9_aggregator_runs_agree (n : Z) (c : list ProxyTestResult)
    (final1 final2 : Agg) :
  aggRun n (aggStart c) final1 -> closed final1 = true ->
  aggRun n (aggStart c) final2 -> closed final2 = true ->
  goodProxies final1 = goodProxies final2 /\
  badProxies final1 = badProxies final2 /\
  goodProxies final1 = goodOf (firstn (Z.to_nat n) c) /\
  badProxies final1 = badOf (firstn (Z.to_nat n) c).
Proof.
  intros Hrun1 Hclosed1 Hrun2 Hclosed2.
  destruct (aggRun_partition n c final1 Hrun1 Hclosed1) as (_ & Hg1 & Hb1).
  destruct (aggRun_partition n c final2 Hrun2 Hclosed2) as (_ & Hg2 & Hb2).
  repeat split; congruence.
Qed.

(** The function and the transition system describe the same aggregator:
    [handleProxyResult] returns a state exactly when a run from the
    start state ends there with the channel closed. *)
Lemma handleProxyResult_run (n : Z) (c : list ProxyTestResult) (final : Agg) :
  handleProxyResult c n [] [] = Returned final <->
  aggRun n (aggStart c) final /\ closed final = true.
Proof.
  unfold handleProxyResult. fold (aggStart c). split.
  - intros Hloop. split.
    + now apply (aggRun_complete n (Z.to_nat (n - 0))).
    + destruct (Nat.le_gt_cases (Z.to_nat (n - 0)) (length c)) as [Hle|Hgt].
      * rewrite aggLoop_returns in Hloop by exact Hle.
        now injection Hloop as <-.
      * rewrite aggLoop_blocks in Hloop by (simpl; lia || reflexivity).
        discriminate.
  - intros [Hrun Hclosed]. now apply aggRun_sound in Hrun.
Qed.

Lemma C9_aggregator_runs_agree_witness :
  let c := [mkResult (mkProxy "5.6.7.8" "8080" "alice" "secret") 400 200 true;
            mkResult (mkProxy "1.2.3.4" "8080" "" "") 10000 (-1) false] in
  exists final,
    aggRun 2 (aggStart c) final /\ closed final = true /\
    goodProxies final = goodProxies final /\
    badProxies final = badProxies final /\
    goodProxies final = goodOf (firstn 2 c) /\
    badProxies final = badOf (firstn 2 c).
Proof.
  intros c.
  assert (Hrun : exists final, aggRun 2 (aggStart c) final /\ closed final = true).
  { eexists. split.
    - eapply run_step.
      { eapply step_receive; [reflexivity | simpl; lia | reflexivity
                             | vm_compute; reflexivity]. }
      eapply run_step.
      { eapply step_receive; [reflexivity | simpl; lia | reflexivity
                             | vm_compute; reflexivity]. }
      eapply run_step; [|apply run_done].
      apply step_close; [reflexivity | simpl; lia].
    - reflexivity. }
  destruct Hrun as [final [Hrun Hclosed]].
  exists final. split; [exact Hrun | split; [exact Hclosed|]].
  exact (C9_aggregator_runs_agree 2 c final final Hrun Hclosed Hrun Hclosed).
Defined.

(** * Further properties of the program *)

(** ** Lines with and without colons *)

Lemma Count_append (s t : string) (sep : ascii) :
  strings.Count (s +++ t) sep
  = (strings.Count s sep + strings.Count t sep)%nat.
Proof.
  induction s as [|ch s IH]; simpl; [reflexivity|].
  destruct (Ascii.eqb ch sep); simpl; now rewrite IH.
Qed.

(** A string without the separator is its own single field. *)
Lemma Split_clean (s : string) (sep : ascii) :
  strings.Count s sep = 0%nat -> strings.Split s sep = [s].
Proof.
  induction s as [|ch s IH]; simpl; [reflexivity|].
  destruct (Ascii.eqb ch sep); [discriminate|].
  intros H. now rewrite (IH H).
Qed.

(** A first field without the separator is split off as it is. *)
Lemma Split_field (field rest : string) (sep : ascii) :
  strings.Count field sep = 0%nat ->
  strings.Split (field +++ String sep rest) sep
  = field :: strings.Split rest sep.
Proof.
  induction field as [|ch field IH]; simpl.
  - intros _. now rewrite Ascii.eqb_refl.
  - destruct (Ascii.eqb ch sep); [discriminate|].
    intros H. now rewrite (IH H).
Qed.

(** X1: [stringToProxy] accepts a line exactly when the line holds one
    colon or three; every other line, the empty one included, gets the
    parse error. *)
Theorem stringToProxy_accepts_iff_colons (line : string) :
  snd (stringToProxy line) = None <->
  strings.Count line ":" = 1%nat \/ strings.Count line ":" = 3%nat.
Proof.
  rewrite stringToProxy_ok_iff. unfold validLine, fieldCount.
  rewrite length_Split. lia.
Qed.

(** The fields of a record that came out of the parser hold no colon. *)
Lemma parsed_fields_clean (line : string) (p : Proxy) :
  stringToProxy line = (p, None) ->
  strings.Count (IP p) ":" = 0%nat /\
  strings.Count (Port p) ":" = 0%nat /\
  strings.Count (User p) ":" = 0%nat /\
  strings.Count (Pass p) ":" = 0%nat.
Proof.
  intros Hparse.
  assert (Hvalid : validLine line).
  { apply stringToProxy_ok_iff. now rewrite Hparse. }
  pose proof (Split_fields_clean line ":") as Hclean.
  unfold validLine, fieldCount in Hvalid.
  unfold stringToProxy, index in Hparse.
  destruct (strings.Split line ":") as [|a [|b [|c [|d [|e l]]]]];
    simpl in Hvalid, Hparse; try (destruct Hvalid; discriminate);
    injection Hparse as <-; simpl;
    repeat match goal with
           | H : Forall _ (_ :: _) |- _ => inversion H; subst; clear H
           end; auto.
Qed.

(** X2: whatever the line, the four fields of a record the parser
    returns without error contain no colon. *)
Theorem stringToProxy_fields_have_no_colon (line : string) (p : Proxy) :
  stringToProxy line = (p, None) ->
  strings.Count (IP p) ":" = 0%nat /\
  strings.Count (Port p) ":" = 0%nat /\
  strings.Count (User p) ":" = 0%nat /\
  strings.Count (Pass p) ":" = 0%nat.
Proof. exact (parsed_fields_clean line p). Qed.

Lemma stringToProxy_fields_have_no_colon_witness :
  let p := mkProxy "5.6.7.8" "8080" "alice" "secret" in
  strings.Count (IP p) ":" = 0%nat /\
  strings.Count (Port p) ":" = 0%nat /\
  strings.Count (User p) ":" = 0%nat /\
  strings.Count (Pass p) ":" = 0%nat.
Proof.
  intros p.
  apply (stringToProxy_fields_have_no_colon "5.6.7.8:8080:alice:secret" p).
  reflexivity.
Defined.

Lemma normalised_full (p : Proxy) :
  User p <> "" -> Pass p <> "" -> normalised p = p.
Proof.
  unfold normalised. intros HU HP.
  apply nonempty_true in HU, HP. now rewrite HU, HP.
Qed.

Lemma normalised_short (p : Proxy) :
  User p = "" \/ Pass p = "" -> normalised p = mkProxy (IP p) (Port p) "" "".
Proof.
  unfold normalised. intros [H|H]; apply nonempty_false in H; rewrite H.
  - reflexivity.
  - now rewrite andb_false_r.
Qed.

(** Parsing the raw form of a record with colon-free fields gives the
    record back, less a credential that stood alone. *)
Lemma stringToProxy_rawString (p : Proxy) :
  strings.Count (IP p) ":" = 0%nat ->
  strings.Count (Port p) ":" = 0%nat ->
  strings.Count (User p) ":" = 0%nat ->
  strings.Count (Pass p) ":" = 0%nat ->
  stringToProxy (rawString p) = (normalised p, None).
Proof.
  intros HI HPo HU HPa.
  destruct (String.eqb_spec (User p) "") as [EU|EU];
    [|destruct (String.eqb_spec (Pass p) "") as [EP|EP]].
  - rewrite rawString_short, normalised_short by (now left).
    unfold stringToProxy. rewrite append_assoc. simpl.
    rewrite (Split_field _ _ _ HI), (Split_clean _ _ HPo). reflexivity.
  - rewrite rawString_short, normalised_short by (now right).
    unfold stringToProxy. rewrite append_assoc. simpl.
    rewrite (Split_field _ _ _ HI), (Split_clean _ _ HPo). reflexivity.
  - rewrite rawString_long, normalised_full by assumption.
    unfold stringToProxy. repeat (rewrite append_assoc; simpl).
    rewrite (Split_field _ _ _ HI), (Split_field _ _ _ HPo),
            (Split_field _ _ _ HU), (Split_clean _ _ HPa).
    simpl. now destruct p.
Qed.

(** X3: parsing undoes the raw form: for a record whose fields hold no
    colon and whose credentials are both present or both absent,
    [stringToProxy (rawString p)] is [p] with a nil error. *)
Theorem stringToProxy_inverts_rawString (p : Proxy) :
  cleanRecord p -> stringToProxy (rawString p) = (p, None).
Proof.
  intros (HI & HPo & HU & HPa & Hcred).
  rewrite stringToProxy_rawString by assumption. f_equal.
  destruct Hcred as [[HU' HP']|[HU' HP']].
  - now apply normalised_full.
  - rewrite normalised_short by (now left).
    destruct p as [ip port user pass]. simpl in *. now subst.
Qed.

Lemma stringToProxy_inverts_rawString_witness :
  stringToProxy (rawString (mkProxy "5.6.7.8" "8080" "alice" "secret"))
  = (mkProxy "5.6.7.8" "8080" "alice" "secret", None).
Proof.
  apply (stringToProxy_inverts_rawString
           (mkProxy "5.6.7.8" "8080" "alice" "secret")).
  repeat split; try reflexivity.
  left. split; discriminate.
Defined.

(** The projections do not tell a record from its normal form. *)
Lemma rawString_normalised (p : Proxy) :
  rawString (normalised p) = rawString p.
Proof.
  unfold normalised, rawString.
  destruct (nonempty (User p) && nonempty (Pass p)) eqn:E; simpl.
  - now rewrite E.
  - reflexivity.
Qed.

Lemma conString_normalised (p : Proxy) :
  conString (normalised p) = conString p.
Proof.
  unfold normalised, conString.
  destruct (nonempty (User p) && nonempty (Pass p)) eqn:E; simpl.
  - now rewrite E.
  - reflexivity.
Qed.

(** X4: the raw form of any parsed record is again a line the parser
    accepts; parsing it gives the record less a credential that stood
    alone, and that record has the same raw form and the same
    connection form: the raw form is a fixed point of parse-then-print. *)
Theorem rawString_of_parsed_reparses (line : string) (p : Proxy) :
  stringToProxy line = (p, None) ->
  stringToProxy (rawString p) = (normalised p, None) /\
  rawString (normalised p) = rawString p /\
  conString (normalised p) = conString p /\
  (credentialsInvariant p -> normalised p = p).
Proof.
  intros Hparse.
  destruct (parsed_fields_clean line p Hparse) as (HI & HPo & HU & HPa).
  split; [now apply stringToProxy_rawString|].
  split; [apply rawString_normalised|].
  split; [apply conString_normalised|].
  intros [[HU' HP']|[HU' HP']].
  - now apply normalised_full.
  - rewrite normalised_short by (now left).
    destruct p as [ip port user pass]. simpl in *. now subst.
Qed.

Lemma rawString_of_parsed_reparses_witness :
  let p := mkProxy "5.6.7.8" "8080" "" "secret" in
  stringToProxy (rawString p) = (normalised p, None) /\
  rawString (normalised p) = rawString p /\
  conString (normalised p) = conString p /\
  (credentialsInvariant p -> normalised p = p).
Proof.
  intros p.
  apply (rawString_of_parsed_reparses "5.6.7.8:8080::secret" p).
  reflexivity.
Defined.

(** ** The loader *)

Lemma validLineb_spec (line : string) :
  validLineb line = true <-> validLine line.
Proof.
  unfold validLineb, validLine.
  rewrite orb_true_iff, !Nat.eqb_eq. tauto.
Qed.

(** The scanning loop keeps what it has and appends the records of the
    accepted lines, in the order of the lines. *)
Lemma scanLines_filter (lines : list string) : forall acc,
  scanLines lines acc
  = acc ++ map (fun line => fst (stringToProxy line))
               (filter validLineb lines).
Proof.
  unfold scanLines.
  induction lines as [|line lines IH]; intros acc; simpl.
  - now rewrite app_nil_r.
  - rewrite IH. unfold loadLine.
    destruct (validLineb line) eqn:Hv.
    + apply validLineb_spec, stringToProxy_ok_iff in Hv. cbn [map].
      destruct (stringToProxy line) as [proxy err]. simpl in *. subst err.
      now rewrite <- app_assoc.
    + destruct (stringToProxy line) as [proxy [e|]] eqn:Hparse;
        [reflexivity|].
      assert (validLine line)
        by (apply stringToProxy_ok_iff; now rewrite Hparse).
      apply validLineb_spec in H. congruence.
Qed.

(** Every record the loop adds came out of the parser. *)
Lemma scanLines_parsed (lines : list string) :
  Forall (fun p => exists line, stringToProxy line = (p, None))
         (scanLines lines []).
Proof.
  rewrite scanLines_filter. simpl.
  apply Forall_forall. intros p Hin.
  apply in_map_iff in Hin. destruct Hin as [line [<- Hin]].
  apply filter_In in Hin. destruct Hin as [_ Hv].
  apply validLineb_spec, stringToProxy_ok_iff in Hv.
  exists line. destruct (stringToProxy line) as [q err].
  simpl in *. now subst.
Qed.

(** Loading the raw forms of parsed records. *)
Lemma scanLines_rawStrings (ps : list Proxy) : forall acc,
  Forall (fun p => exists line, stringToProxy line = (p, None)) ps ->
  scanLines (map rawString ps) acc = acc ++ map normalised ps.
Proof.
  unfold scanLines.
  induction ps as [|p ps IH]; intros acc Hall; simpl.
  - now rewrite app_nil_r.
  - inversion Hall as [|? ? [line Hparse] Hrest]; subst.
    destruct (parsed_fields_clean line p Hparse) as (HI & HPo & HU & HPa).
    unfold loadLine at 2.
    rewrite stringToProxy_rawString by assumption.
    rewrite IH by assumption. now rewrite <- app_assoc.
Qed.

(** X6: the raw forms of the records loaded from any file load again:
    every one of them is accepted, the records come back in the same
    order, each less a credential that stood alone, and their raw forms
    are the ones that were loaded. *)
Theorem loaded_raw_forms_reload (lines : list string) :
  let proxies := scanLines lines [] in
  let again := scanLines (map rawString proxies) [] in
  again = map normalised proxies /\
  map rawString again = map rawString proxies /\
  length again = length proxies.
Proof.
  intros proxies again. subst again.
  rewrite scanLines_rawStrings by apply scanLines_parsed. simpl.
  split; [reflexivity|]. split.
  - rewrite map_map. apply map_ext. intros p. apply rawString_normalised.
  - apply length_map.
Qed.

(** ** The writer: [writeArrayToFile] *)

Lemma linesText_cons (s : string) (arr : list string) :
  linesText (s :: arr) = s +++ String LF (linesText arr).
Proof. simpl. now rewrite append_assoc. Qed.

Lemma linesText_app (arr arr' : list string) :
  linesText (arr ++ arr') = linesText arr +++ linesText arr'.
Proof.
  induction arr as [|s arr IH]; [reflexivity|].
  cbn [app linesText fold_right]. fold (linesText (arr ++ arr')).
  fold (linesText arr). now rewrite IH, !append_assoc.
Qed.

(** The first [n] bytes of a string are a prefix of it. *)
Lemma substring_prefix (n : nat) : forall s,
  exists rest, s = String.substring 0 n s +++ rest.
Proof.
  induction n as [|n IH]; intros s.
  - exists s. now destruct s.
  - destruct s as [|ch s]; [now exists ""|].
    destruct (IH s) as [rest Hrest]. exists rest. simpl. now rewrite <- Hrest.
Qed.

(** The loop of the writer when no write fails. *)
Lemma writeAll_faultless (os : OS) (fileName : string) (arr : list string) :
  (forall content data, writeFault os fileName content data = None) ->
  forall content,
    writeAll os fileName content arr = (content +++ linesText arr, None).
Proof.
  intros Hok. induction arr as [|s arr IH]; intros content.
  - simpl. now rewrite append_nil_r.
  - cbn [writeAll]. rewrite Hok, IH.
    cbn [linesText fold_right]. fold (linesText arr).
    now rewrite !append_assoc.
Qed.

(** The loop of the writer, whatever fails: what the file holds
    afterwards is what it held, then a prefix of the text of the slice;
    and with a nil error that prefix is the whole text. *)
Lemma writeAll_appends (os : OS) (fileName : string) (arr : list string) :
  forall content,
  exists written rest,
    fst (writeAll os fileName content arr) = content +++ written /\
    linesText arr = written +++ rest /\
    (snd (writeAll os fileName content arr) = None -> rest = "").
Proof.
  induction arr as [|s arr IH]; intros content.
  - exists "", "". simpl. now rewrite append_nil_r.
  - cbn [writeAll].
    destruct (writeFault os fileName content (s +++ newline))
      as [[n e]|] eqn:Hfault.
    + destruct (substring_prefix n (s +++ newline)) as [rest Hrest].
      exists (String.substring 0 n (s +++ newline)), (rest +++ linesText arr).
      simpl. split; [reflexivity|]. split; [|discriminate].
      fold (linesText arr). rewrite <- append_assoc. now rewrite <- Hrest.
    + destruct (IH (content +++ (s +++ newline)))
        as (written & rest & Hfst & Htext & Hnil).
      exists ((s +++ newline) +++ written), rest.
      rewrite Hfst. split; [now rewrite !append_assoc|].
      split; [|exact Hnil].
      cbn [linesText fold_right]. fold (linesText arr).
      now rewrite Htext, !append_assoc.
Qed.

Lemma writeFile_same (disk : Disk) (name content : string) :
  writeFile disk name content name = Some content.
Proof. unfold writeFile. now rewrite String.eqb_refl. Qed.

Lemma writeFile_other (disk : Disk) (name content other : string) :
  other <> name -> writeFile disk name content other = disk other.
Proof.
  unfold writeFile. intros Hne.
  apply String.eqb_neq in Hne. now rewrite Hne.
Qed.

(** What a call of the writer leaves on disk, whatever fails. *)
Lemma writeArrayToFile_effect (os : OS) (disk : Disk) (arr : list string)
    (fileName : string) :
  let result := writeArrayToFile os disk arr fileName in
  (forall other, other <> fileName -> fst result other = disk other) /\
  (exists written rest,
      contentOf (fst result) fileName = contentOf disk fileName +++ written /\
      linesText arr = written +++ rest /\
      (snd result = None -> rest = "")) /\
  (openFileFault os fileName = None -> fst result fileName <> None) /\
  (forall e, openFileFault os fileName = Some e ->
             result = (disk, Some e)).
Proof.
  unfold writeArrayToFile.
  destruct (openFileFault os fileName) as [e|] eqn:Hopen.
  - simpl. split; [reflexivity|]. split; [|split].
    + exists "", (linesText arr). rewrite append_nil_r.
      split; [reflexivity|]. split; [reflexivity | discriminate].
    + discriminate.
    + now intros e' [= <-].
  - destruct (writeAll_appends os fileName arr (contentOf disk fileName))
      as (written & rest & Hfst & Htext & Hnil).
    destruct (writeAll os fileName (contentOf disk fileName) arr)
      as [content err].
    simpl in *. subst content. split; [|split; [|split]].
    + intros other Hne. now apply writeFile_other.
    + exists written, rest. unfold contentOf at 1.
      rewrite writeFile_same. auto.
    + intros _. rewrite writeFile_same. discriminate.
    + discriminate.
Qed.

(** X7: [writeArrayToFile] only ever appends, and only to its file:
    whatever the operating system refuses, every other file is left as
    it was, and the file named holds afterwards what it held before
    followed by a prefix of the text of the slice (each entry followed
    by a newline); once it is opened the file exists, even for an empty
    slice; when the opening fails the disk is unchanged and that error
    is returned. *)
Theorem writeArrayToFile_appends_only (os : OS) (disk : Disk)
    (arr : list string) (fileName : string) :
  let result := writeArrayToFile os disk arr fileName in
  (forall other, other <> fileName -> fst result other = disk other) /\
  (exists written rest,
      contentOf (fst result) fileName = contentOf disk fileName +++ written /\
      linesText arr = written +++ rest) /\
  (openFileFault os fileName = None -> fst result fileName <> None) /\
  (forall e, openFileFault os fileName = Some e ->
             result = (disk, Some e)).
Proof.
  destruct (writeArrayToFile_effect os disk arr fileName)
    as (Hother & (written & rest & Hc & Ht & _) & Hexists & Hfail).
  repeat split; try assumption.
  now exists written, rest.
Qed.

(** A nil error of the writer means every entry is on disk. *)
Lemma writeArrayToFile_complete (os : OS) (disk disk' : Disk)
    (arr : list string) (fileName : string) :
  writeArrayToFile os disk arr fileName = (disk', None) ->
  disk' fileName = Some (contentOf disk fileName +++ linesText arr) /\
  forall other, other <> fileName -> disk' other = disk other.
Proof.
  intros Hwrite.
  destruct (writeArrayToFile_effect os disk arr fileName)
    as (Hother & (written & rest & Hc & Ht & Hnil) & Hexists & Hfail).
  rewrite Hwrite in *. simpl in *.
  specialize (Hnil eq_refl). subst rest. rewrite append_nil_r in Ht.
  split; [|exact Hother].
  assert (Hopen : openFileFault os fileName = None).
  { destruct (openFileFault os fileName) as [e|] eqn:E; [|reflexivity].
    specialize (Hfail e eq_refl). discriminate. }
  specialize (Hexists Hopen). unfold contentOf at 1 in Hc.
  destruct (disk' fileName) as [content|]; [|contradiction].
  now rewrite Hc, Ht.
Qed.

(** With nothing refused the writer returns a nil error. *)
Lemma writeArrayToFile_faultless (os : OS) (disk : Disk)
    (arr : list string) (fileName : string) :
  faultless os fileName ->
  writeArrayToFile os disk arr fileName
  = (writeFile disk fileName (contentOf disk fileName +++ linesText arr),
     None).
Proof.
  intros [Hopen Hwrite]. unfold writeArrayToFile.
  now rewrite Hopen, writeAll_faultless.
Qed.

(** X8: the error of [writeArrayToFile] is nil only if every entry of
    the slice, each followed by a newline, was appended in order after
    what the file held, all other files untouched; and it is nil when
    the operating system refuses nothing for that file. *)
Theorem writeArrayToFile_nil_error (os : OS) (disk : Disk)
    (arr : list string) (fileName : string) :
  (snd (writeArrayToFile os disk arr fileName) = None ->
   fst (writeArrayToFile os disk arr fileName) fileName
   = Some (contentOf disk fileName +++ linesText arr) /\
   forall other, other <> fileName ->
     fst (writeArrayToFile os disk arr fileName) other = disk other) /\
  (faultless os fileName ->
   snd (writeArrayToFile os disk arr fileName) = None).
Proof.
  split.
  - intros Hnil.
    apply (writeArrayToFile_complete os disk _ arr fileName).
    destruct (writeArrayToFile os disk arr fileName). simpl in *. now subst.
  - intros Hok. now rewrite writeArrayToFile_faultless.
Qed.

Lemma writeArrayToFile_nil_error_witness :
  snd (writeArrayToFile stubOS stubDisk ["9.9.9.9:80"] "working.txt") = None.
Proof.
  apply (proj2 (writeArrayToFile_nil_error stubOS stubDisk
                  ["9.9.9.9:80"] "working.txt")).
  split; reflexivity.
Defined.

(** X9: the writer stops at the first write that fails: when the
    writes of the earlier entries succeed, each on what the file holds
    at that moment, and the write of the next entry fails after [n]
    bytes, the entries before it are on disk in full, the failing
    entry as far as the write got, no later entry at all, and the
    error returned is the one of that write. *)
Theorem writeArrayToFile_stops_at_first_failure (os : OS) (disk : Disk)
    (before after : list string) (s fileName : string) (n : nat) (e : error) :
  openFileFault os fileName = None ->
  (forall done t todo,
     before = done ++ t :: todo ->
     writeFault os fileName (contentOf disk fileName +++ linesText done)
                (t +++ newline) = None) ->
  writeFault os fileName (contentOf disk fileName +++ linesText before)
             (s +++ newline) = Some (n, e) ->
  writeArrayToFile os disk (before ++ s :: after) fileName
  = (writeFile disk fileName
       ((contentOf disk fileName +++ linesText before)
        +++ String.substring 0 n (s +++ newline)),
     Some e).
Proof.
  intros Hopen Hbefore Hfail. unfold writeArrayToFile. rewrite Hopen.
  assert (Hloop : forall content,
    (forall done t todo,
       before = done ++ t :: todo ->
       writeFault os fileName (content +++ linesText done)
                  (t +++ newline) = None) ->
    writeFault os fileName (content +++ linesText before) (s +++ newline)
      = Some (n, e) ->
    writeAll os fileName content (before ++ s :: after)
    = ((content +++ linesText before)
       +++ String.substring 0 n (s +++ newline), Some e)).
  { clear Hbefore Hfail.
    induction before as [|t before IH]; intros content Hbefore Hfail.
    - simpl in *. rewrite append_nil_r in *. now rewrite Hfail.
    - cbn [app writeAll].
      pose proof (Hbefore [] t before eq_refl) as Hfirst.
      simpl in Hfirst. rewrite append_nil_r in Hfirst. rewrite Hfirst.
      assert (Hcons : forall arr,
                content +++ linesText (t :: arr)
                = (content +++ (t +++ newline)) +++ linesText arr).
      { intros arr. now rewrite append_assoc. }
      rewrite Hcons in *.
      apply IH; [|exact Hfail].
      intros done t' todo Heq. rewrite <- Hcons.
      apply (Hbefore (t :: done) t' todo). now rewrite Heq. }
  now rewrite Hloop.
Qed.

Lemma writeArrayToFile_stops_at_first_failure_witness :
  let os := mkOS (fun _ => None) (fun _ => None)
                 (fun _ content data =>
                    if (String.length content + String.length data <=? 3)%nat
                    then None
                    else Some ((3 - String.length content)%nat,
                               errors_New "no space left on device")) in
  writeArrayToFile os (fun _ => None) (["a"] ++ "a" :: ["c"]) "failed.txt"
  = (writeFile (fun _ => None) "failed.txt"
       ((contentOf (fun _ => None) "failed.txt" +++ linesText ["a"])
        +++ String.substring 0 1 ("a" +++ newline)),
     Some (errors_New "no space left on device")).
Proof.
  intros os.
  apply (writeArrayToFile_stops_at_first_failure os (fun _ => None)
           ["a"] ["c"] "a" "failed.txt" 1
           (errors_New "no space left on device")).
  - reflexivity.
  - intros done t todo Heq.
    destruct done as [|d done]; [|destruct done; discriminate].
    injection Heq as <- _. reflexivity.
  - reflexivity.
Defined.

(** ** Written files read back *)

(** The text of a slice of newline-free entries splits at its newlines
    into the entries and one empty stretch at the end. *)
Lemma Split_linesText (arr : list string) :
  Forall (fun s => strings.Count s LF = 0%nat) arr ->
  strings.Split (linesText arr) LF = arr ++ [""].
Proof.
  induction 1 as [|s arr Hs Harr IH]; [reflexivity|].
  rewrite linesText_cons, Split_field by exact Hs. now rewrite IH.
Qed.

(** The scanner gives the entries back, and nothing for the empty
    stretch after the last newline. *)
Lemma scanSegments_lines (arr : list string) :
  Forall scannable arr -> scanSegments (arr ++ [""]) = arr.
Proof.
  induction 1 as [|s arr (_ & Hcr & Hlen) Harr IH]; [reflexivity|].
  cbn [app scanSegments]. rewrite Hlen, Hcr.
  destruct (arr ++ [""]) as [|seg segs] eqn:E.
  - destruct arr; discriminate.
  - now rewrite IH.
Qed.

Lemma scannerLines_linesText (arr : list string) :
  Forall scannable arr -> scannerLines (linesText arr) = arr.
Proof.
  intros Hall. unfold scannerLines.
  rewrite Split_linesText.
  - now apply scanSegments_lines.
  - eapply Forall_impl; [|exact Hall]. now intros s (H & _).
Qed.

(** X10: what [writeArrayToFile] wrote is read back line for line by
    the scanner of [loadProxies]: if the file held the text of earlier
    entries (or nothing) and the write returns a nil error, scanning the
    file gives the earlier entries followed by the new ones, provided
    every entry is free of newlines, does not end in a carriage return
    and is shorter than the scanner's token limit. *)
Theorem written_file_scans_back (os : OS) (disk disk' : Disk)
    (earlier arr : list string) (fileName : string) :
  contentOf disk fileName = linesText earlier ->
  Forall scannable earlier -> Forall scannable arr ->
  writeArrayToFile os disk arr fileName = (disk', None) ->
  openFault os fileName = None ->
  os_Open os disk' fileName = (earlier ++ arr, None).
Proof.
  intros Hheld Hearlier Harr Hwrite Hopen.
  destruct (writeArrayToFile_complete os disk disk' arr fileName Hwrite)
    as [Hfile _].
  unfold os_Open. rewrite Hopen, Hfile, Hheld, <- linesText_app.
  rewrite scannerLines_linesText; [reflexivity|].
  apply Forall_app. now split.
Qed.

Lemma written_file_scans_back_witness :
  os_Open stubOS
    (fst (writeArrayToFile stubOS stubDisk ["9.9.9.9:80"] "proxies.txt"))
    "proxies.txt"
  = (["1.2.3.4:8080"; "5.6.7.8:8080:alice:secret"] ++ ["9.9.9.9:80"], None).
Proof.
  apply (written_file_scans_back stubOS stubDisk _
           ["1.2.3.4:8080"; "5.6.7.8:8080:alice:secret"] ["9.9.9.9:80"]
           "proxies.txt").
  - reflexivity.
  - repeat constructor.
  - repeat constructor.
  - reflexivity.
  - reflexivity.
Defined.

Lemma normalised_invariant (p : Proxy) :
  credentialsInvariant p -> normalised p = p.
Proof.
  intros [[HU HP]|[HU HP]].
  - now apply normalised_full.
  - rewrite normalised_short by (now left).
    destruct p as [ip port user pass]. simpl in *. now subst.
Qed.

(** Loading the raw forms of clean records gives the records. *)
Lemma scanLines_clean (ps : list Proxy) : forall acc,
  Forall cleanRecord ps ->
  scanLines (map rawString ps) acc = acc ++ ps.
Proof.
  unfold scanLines.
  induction ps as [|p ps IH]; intros acc Hall; simpl.
  - now rewrite app_nil_r.
  - inversion Hall as [|? ? (HI & HPo & HU & HPa & Hcred) Hrest]; subst.
    unfold loadLine at 2.
    rewrite stringToProxy_rawString, normalised_invariant by assumption.
    rewrite IH by assumption. now rewrite <- app_assoc.
Qed.

(** X11: saving and loading are inverse on clean records: when the raw
    forms of records with colon-free fields and whole credentials are
    written by [writeArrayToFile] to a file that held nothing, with a
    nil error, [loadProxies] on that file returns exactly those
    records, in order (each raw form being a line the scanner can give
    back). *)
Theorem saved_proxies_load_back (os : OS) (disk disk' : Disk)
    (ps : list Proxy) (fileName : string) :
  contentOf disk fileName = "" ->
  Forall cleanRecord ps ->
  Forall scannable (map rawString ps) ->
  writeArrayToFile os disk (map rawString ps) fileName = (disk', None) ->
  openFault os fileName = None ->
  loadProxies (os_Open os disk') fileName = (ps, None).
Proof.
  intros Hheld Hclean Hscan Hwrite Hopen.
  destruct (writeArrayToFile_complete os disk disk' _ fileName Hwrite)
    as [Hfile _].
  unfold loadProxies, os_Open. rewrite Hopen, Hfile, Hheld. simpl.
  rewrite scannerLines_linesText by exact Hscan.
  now rewrite scanLines_clean.
Qed.

Lemma saved_proxies_load_back_witness :
  let ps := [mkProxy "5.6.7.8" "8080" "alice" "secret";
             mkProxy "1.2.3.4" "8080" "" ""] in
  loadProxies
    (os_Open stubOS
       (fst (writeArrayToFile stubOS stubDisk (map rawString ps)
                              "working.txt")))
    "working.txt"
  = (ps, None).
Proof.
  intros ps.
  apply (saved_proxies_load_back stubOS stubDisk _ ps "working.txt").
  - reflexivity.
  - repeat constructor; discriminate.
  - repeat constructor.
  - reflexivity.
  - reflexivity.
Defined.

(** ** More on the aggregator *)

(** The loop of the aggregator from any lists. *)
Lemma handleProxyResult_from (c : list ProxyTestResult) (n : Z)
    (good bad : list string) :
  let k := Z.to_nat n in
  ((k <= length c)%nat ->
   handleProxyResult c n good bad
   = Returned (mkAgg (skipn k c) (Z.of_nat k)
                     (good ++ goodOf (firstn k c))
                     (bad ++ badOf (firstn k c))
                     (flat_map eventsOf (firstn k c) ++ [Close]) true)) /\
  ((length c < k)%nat ->
   handleProxyResult c n good bad
   = Blocked (mkAgg [] (Z.of_nat (length c))
                    (good ++ goodOf c) (bad ++ badOf c)
                    (flat_map eventsOf c) false)).
Proof.
  intros k. unfold handleProxyResult. rewrite Z.sub_0_r. fold k. split.
  - intros Hlen. now rewrite aggLoop_returns.
  - intros Hlen. now rewrite aggLoop_blocks.
Qed.

(** X12: [handleProxyResult] returns exactly when at least
    [numOfProxies] results arrive (at once, the channel untouched but
    closed, when [numOfProxies] is zero or negative); it then leaves
    the later arrivals in the channel and has only appended to the two
    lists it was given: their earlier entries are still there, in
    place, followed by the raw forms of the results consumed, in
    arrival order. *)
Theorem handleProxyResult_appends (c : list ProxyTestResult) (n : Z)
    (good bad : list string) :
  ((exists final, handleProxyResult c n good bad = Returned final) <->
   (Z.to_nat n <= length c)%nat) /\
  (forall final,
     handleProxyResult c n good bad = Returned final ->
     pending final = skipn (Z.to_nat n) c /\
     goodProxies final = good ++ goodOf (firstn (Z.to_nat n) c) /\
     badProxies final = bad ++ badOf (firstn (Z.to_nat n) c)) /\
  (n <= 0 ->
   handleProxyResult c n good bad
   = Returned (mkAgg c 0 good bad [Close] true)).
Proof.
  destruct (handleProxyResult_from c n good bad) as [Hret Hblock].
  destruct (Nat.le_gt_cases (Z.to_nat n) (length c)) as [Hle|Hgt].
  - specialize (Hret Hle). split; [|split].
    + split; [intros _; exact Hle | intros _; eauto].
    + intros final Hfinal. rewrite Hret in Hfinal.
      injection Hfinal as <-. now repeat split.
    + intros Hn. rewrite Hret.
      replace (Z.to_nat n) with 0%nat by lia. simpl.
      unfold goodOf, badOf. simpl. now rewrite !app_nil_r.
  - specialize (Hblock Hgt). split; [|split].
    + split; [|lia]. intros [final Hfinal]. congruence.
    + intros final Hfinal. congruence.
    + intros Hn. lia.
Qed.

(** The bucket of a result is decided by its status code alone. *)
Lemma isBad_status (result : ProxyTestResult) :
  isBad result = (StatusCode result =? -1).
Proof.
  unfold isBad, disposition.
  destruct (Z.eqb_spec (StatusCode result) (-1)) as [E|E].
  - rewrite E. now rewrite andb_false_r.
  - now destruct (Success result && (StatusCode result >=? 200)
                  && (StatusCode result <? 400)).
Qed.

(** X13: whether a consumed result goes to [bad] or to [good] depends
    on its status code alone: [bad] receives the raw forms of the
    results whose status is -1, [good] those of all the others; the
    transport-succeeded flag only chooses the message printed. *)
Theorem bucket_depends_on_status_only (c : list ProxyTestResult) (N : nat)
    (final : Agg) :
  handleProxyResult c (Z.of_nat N) [] [] = Returned final ->
  badProxies final
  = map (fun r => rawString (ProxyUsed r))
        (filter (fun r => StatusCode r =? -1) (firstn N c)) /\
  goodProxies final
  = map (fun r => rawString (ProxyUsed r))
        (filter (fun r => negb (StatusCode r =? -1)) (firstn N c)).
Proof.
  intros Hfinal.
  destruct (handleProxyResult_from c (Z.of_nat N) [] []) as [Hret Hblock].
  rewrite Nat2Z.id in *.
  destruct (Nat.le_gt_cases N (length c)) as [Hle|Hgt].
  - rewrite (Hret Hle) in Hfinal. injection Hfinal as <-. simpl.
    unfold goodOf, badOf. split; f_equal; apply filter_ext;
      intros r; now rewrite isBad_status.
  - rewrite (Hblock Hgt) in Hfinal. discriminate.
Qed.

Lemma bucket_depends_on_status_only_witness :
  let c := [mkResult (mkProxy "9.9.9.9" "80" "" "") 0 500 false;
            mkResult (mkProxy "1.2.3.4" "8080" "" "") 7 (-1) true] in
  let final := mkAgg [] 2 ["9.9.9.9:80"] ["1.2.3.4:8080"]
                     (flat_map eventsOf c ++ [Close]) true in
  badProxies final
  = map (fun r => rawString (ProxyUsed r))
        (filter (fun r => StatusCode r =? -1) (firstn 2 c)) /\
  goodProxies final
  = map (fun r => rawString (ProxyUsed r))
        (filter (fun r => negb (StatusCode r =? -1)) (firstn 2 c)).
Proof.
  intros c final.
  apply (bucket_depends_on_status_only c 2 final). reflexivity.
Defined.

Lemma goodOf_Permutation (rs rs' : list ProxyTestResult) :
  Permutation rs rs' -> Permutation (goodOf rs) (goodOf rs').
Proof.
  unfold goodOf.
  induction 1 as [|r rs rs' _ IH|r r' rs|rs1 rs2 rs3 _ IH1 _ IH2]; simpl.
  - constructor.
  - destruct (isBad r); simpl; [exact IH | now constructor].
  - destruct (isBad r), (isBad r'); simpl;
      try apply Permutation_refl. apply perm_swap.
  - now transitivity
      (map (fun r => rawString (ProxyUsed r))
           (filter (fun r => negb (isBad r)) rs2)).
Qed.

Lemma badOf_Permutation (rs rs' : list ProxyTestResult) :
  Permutation rs rs' -> Permutation (badOf rs) (badOf rs').
Proof.
  unfold badOf.
  induction 1 as [|r rs rs' _ IH|r r' rs|rs1 rs2 rs3 _ IH1 _ IH2]; simpl.
  - constructor.
  - destruct (isBad r); simpl; [now constructor | exact IH].
  - destruct (isBad r), (isBad r'); simpl;
      try apply Permutation_refl. apply perm_swap.
  - now transitivity
      (map (fun r => rawString (ProxyUsed r)) (filter isBad rs2)).
Qed.

(** The two lists together hold the raw forms of the results, each
    once. *)
Lemma good_bad_Permutation (rs : list ProxyTestResult) :
  Permutation (goodOf rs ++ badOf rs)
              (map (fun r => rawString (ProxyUsed r)) rs).
Proof.
  unfold goodOf, badOf.
  induction rs as [|r rs IH]; simpl; [constructor|].
  destruct (isBad r); simpl.
  - symmetry. etransitivity; [|apply Permutation_middle].
    constructor. now symmetry.
  - now constructor.
Qed.

(** X14: the order in which the results arrive changes only the order
    of the entries: for two arrival orders of the same batch of
    [N] results the aggregator returns in both, and the two [good]
    lists are rearrangements of each other, as are the two [bad]
    lists; together they hold the raw form of every result once. *)
Theorem arrival_order_only_reorders (c c' : list ProxyTestResult) :
  Permutation c c' ->
  exists final final',
    handleProxyResult c (Z.of_nat (length c)) [] [] = Returned final /\
    handleProxyResult c' (Z.of_nat (length c)) [] [] = Returned final' /\
    Permutation (goodProxies final) (goodProxies final') /\
    Permutation (badProxies final) (badProxies final') /\
    Permutation (goodProxies final ++ badProxies final)
                (map (fun r => rawString (ProxyUsed r)) c).
Proof.
  intros Hperm.
  pose proof (Permutation_length Hperm) as Hlen.
  destruct (handleProxyResult_from c (Z.of_nat (length c)) [] [])
    as [Hret _].
  destruct (handleProxyResult_from c' (Z.of_nat (length c)) [] [])
    as [Hret' _].
  rewrite Nat2Z.id in *.
  rewrite Hret by lia. rewrite Hret' by lia.
  do 2 eexists. split; [reflexivity|]. split; [reflexivity|]. simpl.
  rewrite Hlen at 2 4. rewrite !firstn_all.
  split; [now apply goodOf_Permutation|].
  split; [now apply badOf_Permutation|].
  apply good_bad_Permutation.
Qed.

Lemma arrival_order_only_reorders_witness :
  let a := mkResult (mkProxy "5.6.7.8" "8080" "alice" "secret") 400 200 true in
  let b := mkResult (mkProxy "1.2.3.4" "8080" "" "") 10000 (-1) false in
  exists final final',
    handleProxyResult [a; b] 2 [] [] = Returned final /\
    handleProxyResult [b; a] 2 [] [] = Returned final' /\
    Permutation (goodProxies final) (goodProxies final') /\
    Permutation (badProxies final) (badProxies final') /\
    Permutation (goodProxies final ++ badProxies final)
                (map (fun r => rawString (ProxyUsed r)) [a; b]).
Proof.
  intros a b.
  apply (arrival_order_only_reorders [a; b] [b; a]).
  apply perm_swap.
Defined.

(** ** More on the prober *)

(** How a probe ends is decided by what [http.NewRequest] makes of the
    endpoint, as long as the client keeps its contract. *)
Lemma testProxy_kind (lib : Lib) (net : Net) (proxy : Proxy)
    (endpoint : string) :
  doContract net ->
  match http_NewRequest lib "GET" endpoint with
  | (None, _) => testProxy lib net proxy endpoint = ProbePanics
  | (Some _, Some _) => testProxy lib net proxy endpoint = ProbeReturns []
  | (Some _, None) =>
      exists result,
        testProxy lib net proxy endpoint = ProbeReturns [result] /\
        ProxyUsed result = proxy
  end.
Proof.
  intros HDo. rewrite testProxy_unfold.
  destruct (http_NewRequest lib "GET" endpoint) as [[req|] [e|]];
    try reflexivity.
  specialize (HDo (clientFor lib proxy) (withHeaders req)).
  destruct (Do net _ _) as [[resp|] [e|]]; try contradiction; eauto.
Qed.

(** X15: the probes of one batch stand or fall together: for one
    endpoint, and clients that keep their contract, any two probes
    (whatever their proxies and network conditions) either both panic,
    or both return without a result, or both send exactly one result;
    no probe ever sends more than one. *)
Theorem probes_of_one_endpoint_agree (lib : Lib) (net net' : Net)
    (proxy proxy' : Proxy) (endpoint : string) :
  doContract net -> doContract net' ->
  panicked (testProxy lib net proxy endpoint)
  = panicked (testProxy lib net' proxy' endpoint) /\
  length (sentBy (testProxy lib net proxy endpoint))
  = length (sentBy (testProxy lib net' proxy' endpoint)) /\
  (length (sentBy (testProxy lib net proxy endpoint)) <= 1)%nat.
Proof.
  intros HDo HDo'.
  pose proof (testProxy_kind lib net proxy endpoint HDo) as H.
  pose proof (testProxy_kind lib net' proxy' endpoint HDo') as H'.
  destruct (http_NewRequest lib "GET" endpoint) as [[req|] [e|]].
  - rewrite H, H'. simpl. auto.
  - destruct H as [r [-> _]], H' as [r' [-> _]]. simpl. auto.
  - rewrite H, H'. simpl. auto.
  - rewrite H, H'. simpl. auto.
Qed.

Lemma probes_of_one_endpoint_agree_witness :
  let p := mkProxy "1.2.3.4" "8080" "" "" in
  let p' := mkProxy "5.6.7.8" "8080" "alice" "secret" in
  panicked (testProxy stubLib netTimeout p "https://example.com")
  = panicked (testProxy stubLib (netStatus 200 400) p' "https://example.com") /\
  length (sentBy (testProxy stubLib netTimeout p "https://example.com"))
  = length (sentBy (testProxy stubLib (netStatus 200 400) p'
                              "https://example.com")) /\
  (length (sentBy (testProxy stubLib netTimeout p "https://example.com"))
   <= 1)%nat.
Proof.
  intros p p'.
  apply (probes_of_one_endpoint_agree stubLib netTimeout (netStatus 200 400)
           p p' "https://example.com").
  - intros client req. simpl. discriminate.
  - intros client req. simpl. discriminate.
Defined.

(** X16: a credential that stands alone plays no part in the probe: a
    record with only a username or only a password is probed with the
    same client, and so ends the same way with the same elapsed time,
    status code and flag, as the record without credentials. *)
Theorem lone_credential_is_ignored (lib : Lib) (net : Net) (proxy : Proxy)
    (endpoint : string) :
  clientFor lib proxy = clientFor lib (normalised proxy) /\
  panicked (testProxy lib net proxy endpoint)
  = panicked (testProxy lib net (normalised proxy) endpoint) /\
  map (fun r => (Speed r, StatusCode r, Success r))
      (sentBy (testProxy lib net proxy endpoint))
  = map (fun r => (Speed r, StatusCode r, Success r))
        (sentBy (testProxy lib net (normalised proxy) endpoint)) /\
  (partialCredentials proxy ->
   normalised proxy = mkProxy (IP proxy) (Port proxy) "" "").
Proof.
  assert (Hclient : clientFor lib proxy = clientFor lib (normalised proxy)).
  { unfold clientFor. now rewrite conString_normalised. }
  split; [exact Hclient|].
  rewrite !testProxy_unfold, <- Hclient.
  split; [|split].
  - destruct (http_NewRequest lib "GET" endpoint) as [[req|] [e|]];
      try reflexivity.
    destruct (Do net _ _) as [[resp|] [e|]]; reflexivity.
  - destruct (http_NewRequest lib "GET" endpoint) as [[req|] [e|]];
      try reflexivity.
    destruct (Do net _ _) as [[resp|] [e|]]; reflexivity.
  - intros [[HU _]|[_ HP]]; apply normalised_short; tauto.
Qed.

(** ** The whole program *)

(** What the probes of a batch send, numbered from any index on. *)
Lemma probes_send_at_most (lib : Lib) (nets : nat -> Net)
    (endpoint : string) (ps : list Proxy) : forall start,
  (length (flat_map sentBy
     (map (fun numbered =>
             testProxy lib (nets (fst numbered)) (snd numbered) endpoint)
          (combine (seq start (length ps)) ps))) <= length ps)%nat.
Proof.
  induction ps as [|p ps IH]; intros start; simpl; [lia|].
  rewrite length_app.
  pose proof (testProxy_sends_at_most_one lib (nets start) p endpoint).
  specialize (IH (S start)). lia.
Qed.

(** When as many results were sent as there are records, they are one
    per record, in the order of the records. *)
Lemma probes_send_all (lib : Lib) (nets : nat -> Net)
    (endpoint : string) (ps : list Proxy) : forall start,
  length (flat_map sentBy
     (map (fun numbered =>
             testProxy lib (nets (fst numbered)) (snd numbered) endpoint)
          (combine (seq start (length ps)) ps))) = length ps ->
  map ProxyUsed (flat_map sentBy
     (map (fun numbered =>
             testProxy lib (nets (fst numbered)) (snd numbered) endpoint)
          (combine (seq start (length ps)) ps))) = ps.
Proof.
  induction ps as [|p ps IH]; intros start; simpl; [reflexivity|].
  rewrite length_app, map_app. intros Hlen.
  pose proof (testProxy_sends_at_most_one lib (nets start) p endpoint) as H1.
  pose proof (probes_send_at_most lib nets endpoint ps (S start)) as Hrest.
  rewrite IH by lia. 
  destruct (sentBy (testProxy lib (nets start) p endpoint))
    as [|r [|r' l]] eqn:Hsent; simpl in *; try lia.
  f_equal.
  destruct (testProxy_outcome lib (nets start) p endpoint r)
    as [req (_ & HP & _)]; [rewrite Hsent; now left | exact HP].
Qed.

(** With the request built and clients that keep their contract, every
    probe of the batch returns with one result. *)
Lemma probes_all_return (lib : Lib) (nets : nat -> Net)
    (endpoint : string) (req : Request) (ps : list Proxy) :
  http_NewRequest lib "GET" endpoint = (Some req, None) ->
  (forall k, doContract (nets k)) ->
  forall start,
    existsb panicked
      (map (fun numbered =>
              testProxy lib (nets (fst numbered)) (snd numbered) endpoint)
           (combine (seq start (length ps)) ps)) = false /\
    length (flat_map sentBy
      (map (fun numbered =>
              testProxy lib (nets (fst numbered)) (snd numbered) endpoint)
           (combine (seq start (length ps)) ps))) = length ps.
Proof.
  intros HNew HDo.
  induction ps as [|p ps IH]; intros start; simpl; [now split|].
  destruct (IH (S start)) as [Hpanic Hlen].
  pose proof (testProxy_kind lib (nets start) p endpoint (HDo start)) as Hk.
  rewrite HNew in Hk. destruct Hk as [r [-> _]]. simpl.
  now rewrite Hpanic, Hlen.
Qed.

(** With the request refused, every probe of the batch panics. *)
Lemma probes_all_panic (lib : Lib) (nets : nat -> Net)
    (endpoint : string) (p : Proxy) (ps : list Proxy) :
  fst (http_NewRequest lib "GET" endpoint) = None ->
  existsb panicked (probeAll lib nets (p :: ps) endpoint) = true.
Proof.
  intros HNew. unfold probeAll. simpl.
  rewrite testProxy_unfold.
  destruct (http_NewRequest lib "GET" endpoint) as [[req|] e];
    [discriminate | reflexivity].
Qed.

(** X17: a failure before the tests start is fatal and harmless: when
    the target typed does not start with [https://], or the file
    dialog returns an error, or the chosen file cannot be opened,
    [main] ends with [os.Exit(-1)], and it cannot end any other way: no
    probe is run and the disk is left as it was. *)
Theorem main_fatal_setup_failure (os : OS) (lib : Lib) (nets : nat -> Net)
    (input : UserInput) (disk : Disk) :
  strings.HasPrefix (typedEndpoint input) "https://" = false \/
  snd (dialogLoad input) <> None \/
  snd (loadProxies (os_Open os disk) (fst (dialogLoad input))) <> None ->
  mainRuns os lib nets input disk (Exited (-1)) disk /\
  forall e disk',
    mainRuns os lib nets input disk e disk' ->
    e = Exited (-1) /\ disk' = disk.
Proof.
  intros Hfail. split.
  - destruct (strings.HasPrefix (typedEndpoint input) "https://") eqn:Hp;
      [|now apply main_invalid_url].
    destruct (snd (dialogLoad input)) as [e|] eqn:Hd;
      [now apply (main_dialog_cancelled _ _ _ _ _ e)|].
    destruct Hfail as [Hf|[Hf|Hf]]; try congruence.
    destruct (loadProxies (os_Open os disk) (fst (dialogLoad input)))
      as [proxies [e|]] eqn:Hl; [|now contradiction Hf].
    now apply (main_load_failed _ _ _ _ _ proxies e).
  - intros e disk' Hrun.
    destruct Hrun as [Hp | e' Hp Hd | proxies e' Hp Hd Hl
                     | proxies Hp Hd Hl _ | proxies stream stuck Hp Hd Hl _ _ _
                     | proxies stream final disk1 e1 disk2 e2 Hp Hd Hl _ _ _ _ _];
      try (now split);
      exfalso; destruct Hfail as [Hf|[Hf|Hf]];
      try congruence; rewrite Hl in Hf; now apply Hf.
Qed.

Lemma main_fatal_setup_failure_witness :
  let input := mkInput "http://example.com" ("proxies.txt", None) in
  mainRuns stubOS stubLib (fun _ => netTimeout) input stubDisk
           (Exited (-1)) stubDisk /\
  forall e disk',
    mainRuns stubOS stubLib (fun _ => netTimeout) input stubDisk e disk' ->
    e = Exited (-1) /\ disk' = stubDisk.
Proof.
  intros input.
  apply (main_fatal_setup_failure stubOS stubLib (fun _ => netTimeout)
           input stubDisk).
  left. reflexivity.
Defined.

(** X18: when [main] reaches its last line with both writes
    succeeding, every record loaded from the chosen file has been
    classified exactly once: the lines appended to [working.txt] and
    to [failed.txt] are, together, a rearrangement of the raw forms of
    the loaded records; both files keep what they held before, and no
    other file is touched. *)
Theorem main_finished_partition (os : OS) (lib : Lib) (nets : nat -> Net)
    (input : UserInput) (disk disk' : Disk) :
  mainRuns os lib nets input disk (Finished None None) disk' ->
  exists proxies good bad,
    loadProxies (os_Open os disk) (fst (dialogLoad input)) = (proxies, None) /\
    Permutation (good ++ bad) (map rawString proxies) /\
    disk' "working.txt"
      = Some (contentOf disk "working.txt" +++ linesText good) /\
    disk' "failed.txt"
      = Some (contentOf disk "failed.txt" +++ linesText bad) /\
    forall other,
      other <> "working.txt" -> other <> "failed.txt" ->
      disk' other = disk other.
Proof.
  intros Hrun.
  inversion Hrun
    as [ | | | |
         | proxies stream final disk1 e1 disk2 e2 Hp Hd Hl Hpanic Hperm
             Hagg Hw1 Hw2]; subst.
  exists proxies, (goodProxies final), (badProxies final).
  split; [exact Hl|].
  destruct (writeArrayToFile_complete _ _ _ _ _ Hw1) as [Hfile1 Hother1].
  destruct (writeArrayToFile_complete _ _ _ _ _ Hw2) as [Hfile2 Hother2].
  (* the aggregator consumed the whole stream *)
  destruct (handleProxyResult_from stream (Z.of_nat (length proxies)) [] [])
    as [Hret Hblock].
  rewrite Nat2Z.id in *.
  pose proof (Permutation_length Hperm) as Hlen.
  pose proof (probes_send_at_most lib nets (typedEndpoint input) proxies 0)
    as Hmost.
  fold (probeAll lib nets proxies (typedEndpoint input)) in Hmost.
  destruct (Nat.le_gt_cases (length proxies) (length stream)) as [Hle|Hgt];
    [|rewrite (Hblock Hgt) in Hagg; discriminate].
  rewrite (Hret Hle) in Hagg. injection Hagg as <-. simpl in *.
  assert (Hall : length stream = length proxies) by lia.
  rewrite <- Hall, firstn_all in *.
  split; [|split; [|split]].
  - rewrite good_bad_Permutation.
    rewrite (Permutation_map _ Hperm).
    rewrite <- (map_map ProxyUsed rawString).
    unfold probeAll. rewrite probes_send_all; [reflexivity|].
    fold (probeAll lib nets proxies (typedEndpoint input)). lia.
  - rewrite Hother2 by discriminate. exact Hfile1.
  - rewrite Hfile2. unfold contentOf at 1.
    rewrite Hother1 by discriminate. reflexivity.
  - intros other Hw Hf. rewrite Hother2, Hother1 by assumption. reflexivity.
Qed.

(** X19: [main] runs to its end whenever the setup succeeds and the
    request can be built: if the target starts with [https://], the
    dialog returns a file that opens, [http.NewRequest] accepts the
    target and every client keeps its contract, then [main] can finish
    and cannot end any other way; it neither crashes nor waits for
    ever, in any arrival order, and however many lines the file has. *)
Theorem main_finishes (os : OS) (lib : Lib) (nets : nat -> Net)
    (input : UserInput) (disk : Disk) (proxies : list Proxy) (req : Request) :
  strings.HasPrefix (typedEndpoint input) "https://" = true ->
  snd (dialogLoad input) = None ->
  loadProxies (os_Open os disk) (fst (dialogLoad input)) = (proxies, None) ->
  http_NewRequest lib "GET" (typedEndpoint input) = (Some req, None) ->
  (forall k, doContract (nets k)) ->
  (exists e1 e2 disk',
      mainRuns os lib nets input disk (Finished e1 e2) disk') /\
  (forall e disk',
      mainRuns os lib nets input disk e disk' ->
      exists e1 e2, e = Finished e1 e2).
Proof.
  intros Hp Hd Hl HNew HDo.
  destruct (probes_all_return lib nets (typedEndpoint input) req proxies
              HNew HDo 0) as [Hpanic Hsent].
  fold (probeAll lib nets proxies (typedEndpoint input)) in Hpanic, Hsent.
  split.
  - set (stream := flat_map sentBy
                     (probeAll lib nets proxies (typedEndpoint input))) in *.
    destruct (handleProxyResult_from stream (Z.of_nat (length proxies)) [] [])
      as [Hret _].
    rewrite Nat2Z.id in Hret. specialize (Hret ltac:(lia)).
    destruct (writeArrayToFile os disk
                (goodOf (firstn (length proxies) stream)) "working.txt")
      as [disk1 e1] eqn:Hw1.
    destruct (writeArrayToFile os disk1
                (badOf (firstn (length proxies) stream)) "failed.txt")
      as [disk2 e2] eqn:Hw2.
    exists e1, e2, disk2.
    exact (main_finished os lib nets input disk proxies stream _
             disk1 e1 disk2 e2 Hp Hd Hl Hpanic (Permutation_refl _)
             Hret Hw1 Hw2).
  - intros e disk' Hrun.
    destruct Hrun as [Hp' | e' _ Hd' | ps e' _ _ Hl'
                     | ps _ _ Hl' Hpanic'
                     | ps stream stuck _ _ Hl' _ Hperm Hagg
                     | ps stream final disk1 e1 disk2 e2 _ _ _ _ _ _ _ _];
      try congruence; [|eauto].
    rewrite Hl in Hl'. injection Hl' as <-.
    pose proof (Permutation_length Hperm) as Hlen.
    destruct (handleProxyResult_from stream (Z.of_nat (length proxies))
                [] []) as [Hret _].
    rewrite Nat2Z.id in Hret. rewrite Hret in Hagg by lia. discriminate.
Qed.

(** X20: an endpoint that [http.NewRequest] refuses brings the whole
    run down: once at least one record is loaded, every run of [main]
    ends in the panic of a probe, and nothing is written: the disk is
    as it was, with neither [working.txt] nor [failed.txt] touched. *)
Theorem main_crashes_when_request_refused (os : OS) (lib : Lib)
    (nets : nat -> Net) (input : UserInput) (disk : Disk)
    (p : Proxy) (ps : list Proxy) :
  strings.HasPrefix (typedEndpoint input) "https://" = true ->
  snd (dialogLoad input) = None ->
  loadProxies (os_Open os disk) (fst (dialogLoad input)) = (p :: ps, None) ->
  fst (http_NewRequest lib "GET" (typedEndpoint input)) = None ->
  mainRuns os lib nets input disk Crashed disk /\
  forall e disk',
    mainRuns os lib nets input disk e disk' ->
    e = Crashed /\ disk' = disk.
Proof.
  intros Hp Hd Hl HNew.
  pose proof (probes_all_panic lib nets (typedEndpoint input) p ps HNew)
    as Hpanic.
  split; [now apply (main_probe_panics _ _ _ _ _ (p :: ps))|].
  intros e disk' Hrun.
  destruct Hrun as [Hp' | e' _ Hd' | qs e' _ _ Hl'
                   | qs _ _ Hl' _
                   | qs stream stuck _ _ Hl' Hpanic' _ _
                   | qs stream final disk1 e1 disk2 e2 _ _ Hl' Hpanic' _ _ _ _];
    try congruence.
  now split.
Qed.

Lemma main_finished_partition_witness :
  let good := ["5.6.7.8:8080:alice:secret"] in
  let bad := ["1.2.3.4:8080"] in
  let disk' :=
    fst (writeArrayToFile stubOS
           (fst (writeArrayToFile stubOS stubDisk good "working.txt"))
           bad "failed.txt") in
  exists proxies good bad,
    loadProxies (os_Open stubOS stubDisk) (fst (dialogLoad scenarioInput))
      = (proxies, None) /\
    Permutation (good ++ bad) (map rawString proxies) /\
    disk' "working.txt"
      = Some (contentOf stubDisk "working.txt" +++ linesText good) /\
    disk' "failed.txt"
      = Some (contentOf stubDisk "failed.txt" +++ linesText bad) /\
    forall other,
      other <> "working.txt" -> other <> "failed.txt" ->
      disk' other = stubDisk other.
Proof.
  intros good bad disk'.
  apply (main_finished_partition stubOS stubLib scenarioNets scenarioInput
           stubDisk disk').
  eapply (main_finished stubOS stubLib scenarioNets scenarioInput stubDisk
            [mkProxy "1.2.3.4" "8080" "" "";
             mkProxy "5.6.7.8" "8080" "alice" "secret"]
            [mkResult (mkProxy "5.6.7.8" "8080" "alice" "secret")
                      400000000 200 true;
             mkResult (mkProxy "1.2.3.4" "8080" "" "")
                      10000000000 (-1) false]).
  - reflexivity.
  - reflexivity.
  - reflexivity.
  - reflexivity.
  - vm_compute. apply perm_swap.
  - reflexivity.
  - reflexivity.
  - reflexivity.
Defined.

Lemma main_finishes_witness :
  (exists e1 e2 disk',
      mainRuns stubOS stubLib scenarioNets scenarioInput stubDisk
               (Finished e1 e2) disk') /\
  (forall e disk',
      mainRuns stubOS stubLib scenarioNets scenarioInput stubDisk e disk' ->
      exists e1 e2, e = Finished e1 e2).
Proof.
  apply (main_finishes stubOS stubLib scenarioNets scenarioInput stubDisk
           [mkProxy "1.2.3.4" "8080" "" "";
            mkProxy "5.6.7.8" "8080" "alice" "secret"]
           (mkRequest "GET" "https://example.com" [])).
  - reflexivity.
  - reflexivity.
  - reflexivity.
  - reflexivity.
  - intros [|k] client req; simpl; discriminate.
Defined.

Lemma main_crashes_when_request_refused_witness :
  let input := mkInput "https://%zz" ("proxies.txt", None) in
  mainRuns stubOS stubLib scenarioNets input stubDisk Crashed stubDisk /\
  forall e disk',
    mainRuns stubOS stubLib scenarioNets input stubDisk e disk' ->
    e = Crashed /\ disk' = stubDisk.
Proof.
  intros input.
  apply (main_crashes_when_request_refused stubOS stubLib scenarioNets
           input stubDisk (mkProxy "1.2.3.4" "8080" "" "")
           [mkProxy "5.6.7.8" "8080" "alice" "secret"]).
  - reflexivity.
  - reflexivity.
  - reflexivity.
  - reflexivity.
Defined.

(** X21: the aggregator reports as it receives: when it returns, what
    it did is, for each of the results consumed and in arrival order,
    the receive, the line naming the raw form, and one status line (OK
    with code and speed for a flag set and a status in [200,399], BAD
    for status -1, the warning with code and speed otherwise), and
    then the closing of the channel: three events per result and one
    more. *)
Theorem aggregator_reports_each_result (c : list ProxyTestResult) (N : nat)
    (final : Agg) :
  handleProxyResult c (Z.of_nat N) [] [] = Returned final ->
  trace final = flat_map eventsOf (firstn N c) ++ [Close] /\
  length (trace final) = (3 * N + 1)%nat /\
  forall r, In r (firstn N c) ->
    In (PrintResultsFor (rawString (ProxyUsed r))) (trace final) /\
    (StatusCode r = -1 -> In PrintBAD (trace final)) /\
    (Success r = true -> 200 <= StatusCode r < 400 ->
       In (PrintOK (StatusCode r) (Speed r)) (trace final)).
Proof.
  intros Hfinal.
  destruct (handleProxyResult_from c (Z.of_nat N) [] []) as [Hret Hblock].
  rewrite Nat2Z.id in *.
  destruct (Nat.le_gt_cases N (length c)) as [Hle|Hgt];
    [|rewrite (Hblock Hgt) in Hfinal; discriminate].
  rewrite (Hret Hle) in Hfinal. injection Hfinal as <-. simpl.
  split; [reflexivity|]. split.
  - rewrite length_app. simpl.
    assert (Hthree : forall rs,
              length (flat_map eventsOf rs) = (3 * length rs)%nat).
    { induction rs as [|r rs IH]; simpl; lia. }
    rewrite Hthree, (firstn_length_le c Hle). lia.
  - intros r Hin.
    assert (Hev : forall ev, In ev (eventsOf r) ->
                  In ev (flat_map eventsOf (firstn N c) ++ [Close])).
    { intros ev Hev. apply in_or_app. left.
      apply in_flat_map. now exists r. }
    split; [|split].
    + apply Hev. simpl. auto.
    + intros Hs. apply Hev. unfold eventsOf, disposition.
      rewrite Hs. rewrite andb_false_r. simpl. auto.
    + intros HS Hrange. apply Hev. unfold eventsOf, disposition.
      rewrite HS.
      replace (StatusCode r >=? 200) with true
        by (symmetry; rewrite Z.geb_leb; apply Z.leb_le; lia).
      replace (StatusCode r <? 400) with true
        by (symmetry; apply Z.ltb_lt; lia).
      simpl. auto.
Qed.

Lemma aggregator_reports_each_result_witness :
  let c := [mkResult (mkProxy "5.6.7.8" "8080" "alice" "secret") 400 200 true;
            mkResult (mkProxy "1.2.3.4" "8080" "" "") 10000 (-1) false] in
  let final := mkAgg [] 2 ["5.6.7.8:8080:alice:secret"] ["1.2.3.4:8080"]
                     (flat_map eventsOf c ++ [Close]) true in
  trace final = flat_map eventsOf (firstn 2 c) ++ [Close] /\
  length (trace final) = (3 * 2 + 1)%nat /\
  forall r, In r (firstn 2 c) ->
    In (PrintResultsFor (rawString (ProxyUsed r))) (trace final) /\
    (StatusCode r = -1 -> In PrintBAD (trace final)) /\
    (Success r = true -> 200 <= StatusCode r < 400 ->
       In (PrintOK (StatusCode r) (Speed r)) (trace final)).
Proof.
  intros c final.
  apply (aggregator_reports_each_result c 2 final). reflexivity.
Defined.

(** ** The loader on files *)

(** The text of newline-free entries, followed by more text, splits
    into the entries and the stretches of the rest. *)
Lemma Split_linesText_app (before : list string) (tail : string) :
  Forall (fun s => strings.Count s LF = 0%nat) before ->
  strings.Split (linesText before +++ tail) LF
  = before ++ strings.Split tail LF.
Proof.
  induction 1 as [|s before Hs Hbefore IH]; [reflexivity|].
  rewrite linesText_cons, append_assoc. simpl.
  rewrite Split_field by exact Hs. now rewrite IH.
Qed.

(** The scanner gives the lines before a stretch that is too long, and
    nothing from that stretch on. *)
Lemma scanSegments_stops (before : list string) (long : string)
    (segments : list string) :
  Forall scannable before -> tooLong long = true ->
  scanSegments (before ++ long :: segments) = before.
Proof.
  intros Hbefore Hlong.
  induction Hbefore as [|s before (_ & Hcr & Hlen) Hbefore IH].
  - cbn [app scanSegments]. rewrite Hlong.
    destruct segments; [|reflexivity].
    destruct long; [discriminate Hlong | reflexivity].
  - cbn [app scanSegments]. rewrite Hlen, Hcr, IH.
    now destruct (before ++ long :: segments) eqn:E;
      [destruct before; discriminate|].
Qed.

(** X5: [loadProxies] on a file.  When the file cannot be opened, or
    does not exist, it returns an error and no record.  When it opens,
    the error is nil and the records are exactly those of the lines
    with two or four fields among the lines the scanner yields, in
    order.  For a file of newline-terminated lines that the scanner
    can hold, these are all lines of the file, so there are never more
    records than lines.  But the scanner stops without a word at the
    first line of 65536 bytes or more: the lines before it are loaded,
    the lines after it are not, and the error is still nil. *)
Theorem loadProxies_result (os : OS) (disk : Disk) (filePath : string) :
  (forall e, openFault os filePath = Some e ->
     loadProxies (os_Open os disk) filePath = ([], Some e)) /\
  (openFault os filePath = None -> disk filePath = None ->
     exists e, loadProxies (os_Open os disk) filePath = ([], Some e)) /\
  (forall content,
     openFault os filePath = None -> disk filePath = Some content ->
     loadProxies (os_Open os disk) filePath
     = (map (fun line => fst (stringToProxy line))
            (filter validLineb (scannerLines content)), None)) /\
  (forall lines,
     openFault os filePath = None ->
     disk filePath = Some (linesText lines) ->
     Forall scannable lines ->
     loadProxies (os_Open os disk) filePath
     = (map (fun line => fst (stringToProxy line))
            (filter validLineb lines), None) /\
     (length (fst (loadProxies (os_Open os disk) filePath))
      <= length lines)%nat) /\
  (forall before long tail,
     openFault os filePath = None ->
     disk filePath = Some (linesText before +++ (long +++ tail)) ->
     Forall scannable before ->
     strings.Count long LF = 0%nat -> tooLong long = true ->
     tail = "" \/ (exists rest, tail = String LF rest) ->
     loadProxies (os_Open os disk) filePath
     = (map (fun line => fst (stringToProxy line))
            (filter validLineb before), None)).
Proof.
  unfold loadProxies, os_Open.
  split; [|split; [|split; [|split]]].
  - intros e Hopen. now rewrite Hopen.
  - intros Hopen Hfile. rewrite Hopen, Hfile. eauto.
  - intros content Hopen Hfile. rewrite Hopen, Hfile.
    now rewrite scanLines_filter.
  - intros lines Hopen Hfile Hlines.
    rewrite Hopen, Hfile, scannerLines_linesText by assumption.
    rewrite scanLines_filter. simpl. split; [reflexivity|].
    rewrite length_map. apply filter_length_le.
  - intros before long tail Hopen Hfile Hbefore Hclean Hlong Htail.
    rewrite Hopen, Hfile. unfold scannerLines.
    rewrite Split_linesText_app
      by (eapply Forall_impl; [|exact Hbefore]; now intros s (H & _)).
    assert (Hsplit : exists segments,
              strings.Split (long +++ tail) LF = long :: segments).
    { destruct Htail as [->|[rest ->]].
      - exists []. rewrite append_nil_r. now apply Split_clean.
      - eexists. now apply Split_field. }
    destruct Hsplit as [segments ->].
    rewrite scanSegments_stops by assumption.
    now rewrite scanLines_filter.
Qed.

Lemma loadProxies_result_witness :
  loadProxies (os_Open stubOS longDisk) "long.txt"
  = (map (fun line => fst (stringToProxy line))
         (filter validLineb ["5.6.7.8:8080:alice:secret"]), None).
Proof.
  apply (proj2 (proj2 (proj2 (proj2
           (loadProxies_result stubOS longDisk "long.txt"))))
           ["5.6.7.8:8080:alice:secret"] longLine
           (String LF (linesText ["1.2.3.4:8080"]))).
  - reflexivity.
  - reflexivity.
  - repeat constructor.
  - vm_compute. reflexivity.
  - vm_compute. reflexivity.
  - right. eexists. reflexivity.
Defined.
